(** * Osher's similarity solution for nonconvex scalar conservation laws

    A shallow embedding of the functions of [Nonconvex_scalar.ipynb]:
    [osher_solution], [nonconvex_solutions], [make_plot_function] and
    [set_stripe_regions], with the properties of the discrete argmin /
    argmax evaluator, of the full solve and its characteristic trace, of the
    plot function and of the stripe masks.

    Numbers.  The notebook computes with NumPy doubles, and the file has two
    embeddings of its arithmetic.

    - Module [B64] is the evaluator on IEEE 754 binary64 numbers
      ([SpecFloat], round to nearest even): [linspace], the scans [argmin]
      and [argmax] with NumPy's treatment of [nan], and [osher_solution]
      operation by operation.  The statements about the grid point the evaluator
      answers with (extremal values, ties, ranges, monotonicity) are made
      there, because rounding, overflow and [nan] decide them.

    - Outside [B64] a finite number is an exact rational ([Q]), and the one
      operation that leaves the finite numbers on finite input, the division
      by the grid spacing [qv[1] - qv[0]], carries the IEEE special values it
      produces ([npfloat]).  This embedding serves the statements that do
      not depend on how an operation rounds: which calls raise and which
      return, the shape and the layout of the returned arrays, what the
      uninitialised buffer can influence, degenerate data, the calls the
      plot function makes, the stripe masks.  Equality of rationals is [==]
      ([Qeq]): [1#2] and [2#4] are the same number. *)

From Stdlib Require Import QArith Qminmax Qround Qpower Lqa Lia List Bool ZArith.
From Stdlib Require Import SpecFloat.
From stdpp Require Import base list strings gmap.
Import ListNotations.

Local Open Scope Q_scope.

(** ** Python outcomes *)

(** The exceptions a call of the notebook's functions can raise on numeric
    arguments. *)
Inductive exn : Type :=
  | TypeError.

Inductive outcome (A : Type) : Type :=
  | Returns (a : A)
  | Raises (e : exn).

Arguments Returns {A} a.
Arguments Raises {A} e.

#[global] Instance outcome_ret : MRet outcome := fun A a => Returns a.

#[global] Instance outcome_bind : MBind outcome := fun A B k m =>
  match m with
  | Returns a => k a
  | Raises e => Raises e
  end.

(** ** Python builtins on numbers *)

(** [min(a, b)] keeps its first argument unless the second is strictly
    smaller; [max(a, b)] keeps it unless the second is strictly larger. *)
Definition py_min (a b : Q) : Q := if Qlt_le_dec b a then b else a.
Definition py_max (a b : Q) : Q := if Qlt_le_dec a b then b else a.

(** ** NumPy on one-dimensional arrays *)

Definition Qnat (n : nat) : Q := inject_Z (Z.of_nat n).

(** [linspace(start, stop, num)]: [arange(0, num) * step + start] with
    [step = (stop - start) / (num - 1)], the last entry then overwritten by
    [stop].  With [num = 1] the array is [[start]]. *)
Definition linspace (start stop : Q) (num : nat) : list Q :=
  match num with
  | O => []
  | S O => [start]
  | S div =>
      let step := (stop - start) / Qnat div in
      map (fun i => Qnat i * step + start) (seq 0 div) ++ [stop]
  end.

(** Element-wise [a - b] and scalar [c * v]. *)
Definition np_sub (a b : list Q) : list Q :=
  map (fun p => fst p - snd p) (combine a b).

Definition np_add (a b : list Q) : list Q :=
  map (fun p => fst p + snd p) (combine a b).

Definition np_scale (c : Q) (v : list Q) : list Q := map (Qmult c) v.

(** [argmin(v)]: the index of the first occurrence of the minimum.  The scan
    keeps the best index so far and moves only on a strictly smaller entry.
    (NumPy raises ValueError on an empty array; the arrays scanned here are
    the 1000 values on the state grid, see [length_values].) *)
Fixpoint argmin_from (best_i : nat) (best : Q) (i : nat) (v : list Q) : nat :=
  match v with
  | [] => best_i
  | x :: t =>
      if Qlt_le_dec x best then argmin_from i x (S i) t
      else argmin_from best_i best (S i) t
  end.

Definition argmin (v : list Q) : nat :=
  match v with
  | [] => O
  | x :: t => argmin_from 0 x 1 t
  end.

(** [argmax(v)]: the index of the first occurrence of the maximum. *)
Fixpoint argmax_from (best_i : nat) (best : Q) (i : nat) (v : list Q) : nat :=
  match v with
  | [] => best_i
  | x :: t =>
      if Qlt_le_dec best x then argmax_from i x (S i) t
      else argmax_from best_i best (S i) t
  end.

Definition argmax (v : list Q) : nat :=
  match v with
  | [] => O
  | x :: t => argmax_from 0 x 1 t
  end.

(** [empty(shape)]: an array of the given length whose contents are whatever
    the allocator hands out; [heap] stands for that uninitialised memory. *)
Definition np_empty (heap : nat -> Q) (n : nat) : list Q := map heap (seq 0 n).

(** ** osher_solution *)

(** The number of grid points, the literal [1000] of the source. *)
Definition num_points : nat := 1000.

(** The array [f(qv) - xij*qv] scanned for one query [xij]. *)
Definition values (f : Q -> Q) (qv : list Q) (xij : Q) : list Q :=
  np_sub (map f qv) (np_scale xij qv).

(** The loop [for j, xij in enumerate(xi): i = sel(...); Q[j] = qv[i]],
    started at index [j] on the buffer [Qbuf]. *)
Fixpoint qtilde_loop (sel : list Q -> nat) (f : Q -> Q) (qv : list Q)
    (j : nat) (xi : list Q) (Qbuf : list Q) : list Q :=
  match xi with
  | [] => Qbuf
  | xij :: rest =>
      let i := sel (values f qv xij) in
      qtilde_loop sel f qv (S j) rest (<[j := nth i qv 0]> Qbuf)
  end.

(** The closure [qtilde]: allocate [Q = empty(xi.shape)], run the loop,
    return [Q]. *)
Definition qtilde (sel : list Q -> nat) (heap : nat -> Q) (f : Q -> Q)
    (qv : list Q) (xi : list Q) : list Q :=
  let Qbuf := np_empty heap (length xi) in
  qtilde_loop sel f qv 0 xi Qbuf.

Definition osher_solution (heap : nat -> Q) (f : Q -> Q) (q_left q_right : Q)
    : outcome (list Q -> list Q) :=
  let q_min := py_min q_left q_right in
  let q_max := py_max q_left q_right in
  let qv := linspace q_min q_max num_points in
  if Qle_bool q_left q_right
  then Returns (qtilde argmin heap f qv)
  else Returns (qtilde argmax heap f qv).

(** ** Division by the grid spacing: IEEE special values *)

(** A NumPy double as far as the notebook can tell finite from not. *)
Inductive npfloat : Type :=
  | Fin (x : Q)
  | PosInf
  | NegInf
  | NaN.

(** [x / y] on finite doubles; NumPy warns on a zero divisor and goes on
    with [nan] (for [0/0]) or a signed infinity.  The divisor of the source
    is [qv[1] - qv[0]], which is [+0.0] when it vanishes. *)
Definition np_div (x y : Q) : npfloat :=
  if Qeq_bool y 0 then
    match x ?= 0 with
    | Eq => NaN
    | Gt => PosInf
    | Lt => NegInf
    end
  else Fin (x / y).

(** [a < b]; every comparison with [nan] is false. *)
Definition fl_lt (a b : npfloat) : bool :=
  match a, b with
  | NaN, _ | _, NaN => false
  | Fin x, Fin y => match x ?= y with Lt => true | _ => false end
  | NegInf, NegInf => false
  | NegInf, _ => true
  | _, NegInf => false
  | PosInf, _ => false
  | Fin _, PosInf => true
  end.

(** [a <= b]; false when either is [nan]. *)
Definition fl_le (a b : npfloat) : bool :=
  match a, b with
  | NaN, _ | _, NaN => false
  | _, _ => negb (fl_lt b a)
  end.

Definition fl_neg (a : npfloat) : npfloat :=
  match a with
  | Fin x => Fin (- x)
  | PosInf => NegInf
  | NegInf => PosInf
  | NaN => NaN
  end.

Definition fl_add (a b : npfloat) : npfloat :=
  match a, b with
  | NaN, _ | _, NaN => NaN
  | Fin x, Fin y => Fin (x + y)
  | PosInf, NegInf | NegInf, PosInf => NaN
  | PosInf, _ | _, PosInf => PosInf
  | NegInf, _ | _, NegInf => NegInf
  end.

Definition fl_sub (a b : npfloat) : npfloat := fl_add a (fl_neg b).

(** The sign of a finite number as an infinity, [nan] for zero: what
    [inf * x] is. *)
Definition inf_times (x : Q) : npfloat :=
  match x ?= 0 with
  | Eq => NaN
  | Gt => PosInf
  | Lt => NegInf
  end.

Definition fl_mul (a b : npfloat) : npfloat :=
  match a, b with
  | NaN, _ | _, NaN => NaN
  | Fin x, Fin y => Fin (x * y)
  | PosInf, Fin y | Fin y, PosInf => inf_times y
  | NegInf, Fin y | Fin y, NegInf => fl_neg (inf_times y)
  | PosInf, PosInf | NegInf, NegInf => PosInf
  | PosInf, NegInf | NegInf, PosInf => NegInf
  end.

(** Python's [min(a, b)] and [max(a, b)] on doubles: the second argument
    wins only when the comparison with the first is true. *)
Definition py_fmin (a b : npfloat) : npfloat := if fl_lt b a then b else a.
Definition py_fmax (a b : npfloat) : npfloat := if fl_lt a b then b else a.

(** NumPy's reductions [v.min()] and [v.max()] propagate [nan].  (On an
    empty array NumPy raises ValueError; the array reduced here has 999
    entries, see [length_char_speeds].) *)
Definition fl_minimum (a b : npfloat) : npfloat :=
  match a, b with
  | NaN, _ | _, NaN => NaN
  | _, _ => if fl_lt b a then b else a
  end.

Definition fl_maximum (a b : npfloat) : npfloat :=
  match a, b with
  | NaN, _ | _, NaN => NaN
  | _, _ => if fl_lt a b then b else a
  end.

Definition np_amin (v : list npfloat) : npfloat :=
  match v with
  | [] => NaN
  | x :: t => fold_left fl_minimum t x
  end.

Definition np_amax (v : list npfloat) : npfloat :=
  match v with
  | [] => NaN
  | x :: t => fold_left fl_maximum t x
  end.

(** [diff(v)]: [out[i] = v[i+1] - v[i]]. *)
Definition np_diff (v : list Q) : list Q := np_sub (tail v) (removelast v).

(** ** nonconvex_solutions *)

(** [linspace] called on Python objects: [None] is not a number, and
    [start * 1.0] raises TypeError. *)
Definition linspace_obj (start stop : option Q) (num : nat) : outcome (list Q) :=
  match start, stop with
  | Some a, Some b => Returns (linspace a b num)
  | _, _ => Raises TypeError
  end.

(** [dfdq = diff(fv) / (qv[1] - qv[0])] with [fv = f(qv)]. *)
Definition char_speeds (f : Q -> Q) (qv : list Q) : list npfloat :=
  let fv := map f qv in
  map (fun d => np_div d (nth 1 qv 0 - nth 0 qv 0)) (np_diff fv).

(** The two statements [if xi_left is None: ...] and
    [if xi_right is None: ...]: the bounds after them. *)
Definition default_xi_left (dfdq : list npfloat) : npfloat :=
  let dfdq_min := np_amin dfdq in
  let dfdq_max := np_amax dfdq in
  let dfdq_range := fl_sub dfdq_max dfdq_min in
  fl_sub (py_fmin (Fin 0) dfdq_min) (fl_mul (Fin (1#10)) dfdq_range).

Definition default_xi_right (dfdq : list npfloat) : npfloat :=
  let dfdq_min := np_amin dfdq in
  let dfdq_max := np_amax dfdq in
  let dfdq_range := fl_sub dfdq_max dfdq_min in
  fl_add (py_fmax (Fin 0) dfdq_max) (fl_mul (Fin (1#10)) dfdq_range).

Definition xi_bounds (dfdq : list npfloat) (xi_left xi_right : option Q)
    : npfloat * npfloat :=
  let xi_left :=
    match xi_left with
    | None => default_xi_left dfdq
    | Some x => Fin x
    end in
  let xi_right :=
    match xi_right with
    | None => default_xi_right dfdq
    | Some x => Fin x
    end in
  (xi_left, xi_right).

(** The four arrays returned: [xi], [q], [q_char], [xi_char]. *)
Record solutions : Type := mkSolutions {
  sol_xi : list Q;
  sol_q : list Q;
  sol_q_char : list Q;
  sol_xi_char : list npfloat
}.

Definition nonconvex_solutions (heap : nat -> Q) (f : Q -> Q)
    (q_left q_right : Q) (xi_left xi_right : option Q) : outcome solutions :=
  qtilde ← osher_solution heap f q_left q_right;
  let q_min := py_min q_left q_right in
  let q_max := py_max q_left q_right in
  let qv := linspace q_min q_max num_points in
  xi ← linspace_obj xi_left xi_right num_points;
  let q := qtilde xi in
  let dfdq := char_speeds f qv in
  let '(xi_left, xi_right) := xi_bounds dfdq xi_left xi_right in
  let q_char :=
    [q_min] ++ np_scale (1#2) (np_add (removelast qv) (tail qv)) ++ [q_max] in
  let '(xi_min, xi_max) :=
    if Qle_bool q_left q_right then (xi_left, xi_right)
    else (xi_right, xi_left) in
  let xi_char := [xi_min] ++ dfdq ++ [xi_max] in
  mret (mkSolutions xi q q_char xi_char).

(** ** make_plot_function *)

(** The calls of [matplotlib.pyplot] a plot function makes, with their
    arguments.  Array arguments are doubles; the title of the left panel is
    ['Solution q(x,t) at t = %4.2f' % t]. *)
Inductive plt_call : Type :=
  | plt_figure (width height : nat)
  | plt_subplot (rows cols index : nat)
  | plt_plot (x y : list npfloat) (fmt : string)
      (linewidth : option nat) (label : option string)
  | plt_title_time (t : Q)
  | plt_title (text : string)
  | plt_xlabel (text : string)
  | plt_xlim (lo hi : Q)
  | plt_legend
  | plt_show.

(** The closure [plot_function(t, fig)], for the arrays [sol] unpacked from
    [nonconvex_solutions] and numeric bounds.  It returns [None]; what it
    does is the list of calls. *)
Definition plot_function (f : Q -> Q) (q_left q_right xi_left xi_right : Q)
    (sol : solutions) (t : Q) (fig : Z) : list plt_call :=
  let xi := sol_xi sol in
  let qxi := sol_q sol in
  let q_char := sol_q_char sol in
  let xi_char := sol_xi_char sol in
  (if Z.eqb fig 0 then [plt_figure 12 5] else [])
  ++ [plt_subplot 1 2 1;
      plt_plot (map (fun s => fl_mul s (Fin t)) xi_char) (map Fin q_char)
        "k--" None None]
  ++ (let xi_plot := [xi_left] ++ map (fun x => x * t) xi ++ [xi_right] in
      let q_plot := [q_left] ++ qxi ++ [q_right] in
      [plt_plot (map Fin xi_plot) (map Fin q_plot) "k" (Some 2%nat) None;
       plt_title_time t;
       plt_xlabel "x";
       plt_xlim xi_left xi_right;
       plt_subplot 1 2 2])
  ++ (let q_plot := linspace q_left q_right 1000 in
      let f_plot := map f q_plot in
      [plt_plot (map Fin q_plot) (map Fin f_plot) "k--" None (Some "f(q)");
       plt_plot (map Fin qxi) (map Fin (map f qxi)) "k" None
         (Some "Convex hull");
       plt_plot (map Fin [q_left; q_right]) (map Fin [f q_left; f q_right])
         "bo" None None;
       plt_title "Flux function";
       plt_xlabel "q";
       plt_legend])
  ++ (if Z.eqb fig 0 then [plt_show] else []).

(** [make_plot_function]: the solve runs once, when the plot function is
    made.  A bound that is [None] makes the solve raise, so the closure only
    ever sees numbers; the last branch is not reached. *)
Definition make_plot_function (heap : nat -> Q) (f : Q -> Q)
    (q_left q_right : Q) (xi_left xi_right : option Q)
    : outcome (Q -> Z -> list plt_call) :=
  sol ← nonconvex_solutions heap f q_left q_right xi_left xi_right;
  match xi_left, xi_right with
  | Some a, Some b => mret (plot_function f q_left q_right a b sol)
  | _, _ => Raises TypeError
  end.

(** The sizes of the arrays handed to [plot], call by call, in the order of
    the calls: the number of x values and of y values. *)
Definition plot_sizes (calls : list plt_call) : list (nat * nat) :=
  flat_map (fun c =>
              match c with
              | plt_plot x y _ _ _ => [(length x, length y)]
              | _ => []
              end) calls.

(** ** set_stripe_regions *)

(** [x % y] on doubles, NumPy's remainder: [x - floor(x / y) * y], with the
    sign of [y]. *)
Definition np_mod (x y : Q) : Q := x - inject_Z (Qfloor (x / y)) * y.

(** Element-wise [a * b] on boolean arrays. *)
Definition np_and (a b : list bool) : list bool :=
  map (fun p => andb (fst p) (snd p)) (combine a b).

(** [v >= c] and [v <= c] against a scalar. *)
Definition np_ge (v : list Q) (c : Q) : list bool := map (fun x => Qle_bool c x) v.
Definition np_le (v : list Q) (c : Q) : list bool := map (fun x => Qle_bool x c) v.

(** The four masks, keyed by colour. *)
Definition set_stripe_regions (tracer : list Q) : gmap string (list bool) :=
  let stripes : gmap string (list bool) := ∅ in
  let stripes := <["cornflowerblue" := np_ge tracer 0]> stripes in
  let stripes :=
    <["blue" := np_and (np_ge (map (fun x => np_mod x (1#10)) tracer) (5#100))
                       (np_ge tracer 0)]> stripes in
  let stripes := <["salmon" := np_le tracer 0]> stripes in
  let stripes :=
    <["red" := np_and (np_ge (map (fun x => np_mod x (1#10)) tracer) (5#100))
                      (np_le tracer 0)]> stripes in
  stripes.

(** ** Vocabulary of the statements *)

(** [r] is the index of the first minimum of [v]. *)
Definition first_min (v : list Q) (r : nat) : Prop :=
  exists x, v !! r = Some x
    /\ (forall k y, v !! k = Some y -> x <= y)
    /\ (forall k y, v !! k = Some y -> (k < r)%nat -> x < y).

(** [r] is the index of the first maximum of [v]. *)
Definition first_max (v : list Q) (r : nat) : Prop :=
  exists x, v !! r = Some x
    /\ (forall k y, v !! k = Some y -> y <= x)
    /\ (forall k y, v !! k = Some y -> (k < r)%nat -> y < x).

(** The state grid [qv] both functions build. *)
Definition grid (q_left q_right : Q) : list Q :=
  linspace (py_min q_left q_right) (py_max q_left q_right) num_points.

(** The closure a call of [osher_solution] returns. *)
Definition evaluator (heap : nat -> Q) (f : Q -> Q) (q_left q_right : Q)
    : list Q -> list Q :=
  match osher_solution heap f q_left q_right with
  | Returns ev => ev
  | Raises _ => fun _ => []
  end.

(** The objective [f(q) - xi*q] of Osher's formula. *)
Definition objective (f : Q -> Q) (xi q : Q) : Q := f q - xi * q.

(** The grid point selected for one query: [qv[sel(f(qv) - xij*qv)]]. *)
Definition pick (sel : list Q -> nat) (f : Q -> Q) (qv : list Q) (xij : Q) : Q :=
  nth (sel (values f qv xij)) qv 0.

(** The scan the source uses for the given data. *)
Definition scan (q_left q_right : Q) : list Q -> nat :=
  if Qle_bool q_left q_right then argmin else argmax.

(** The midpoints of consecutive grid points, [(qv[i] + qv[i+1]) / 2]. *)
Fixpoint midpoints (qv : list Q) : list Q :=
  match qv with
  | a :: (b :: _) as t => (1#2) * (a + b) :: midpoints t
  | _ => []
  end.

(** The forward differences of the flux over the grid,
    [f(qv[i+1]) - f(qv[i])]. *)
Fixpoint forward_differences (f : Q -> Q) (qv : list Q) : list Q :=
  match qv with
  | a :: (b :: _) as t => (f b - f a) :: forward_differences f t
  | _ => []
  end.

(** The grid spacing the source divides by, [qv[1] - qv[0]]. *)
Definition spacing (qv : list Q) : Q := nth 1 qv 0 - nth 0 qv 0.

(** * The evaluator in binary64 *)

(** [osher_solution] once more, with NumPy's doubles: every operation is the
    IEEE 754 binary64 operation with round to nearest even of [SpecFloat]
    ([prec = 53], [emax = 1024]), comparisons with [nan] are false, and the
    scans propagate [nan] as NumPy's do. *)
Module B64.

Definition prec : Z := 53.
Definition emax : Z := 1024.
Abbreviation float := spec_float.

Definition add : float -> float -> float := SFadd prec emax.
Definition sub : float -> float -> float := SFsub prec emax.
Definition mul : float -> float -> float := SFmul prec emax.
Definition div : float -> float -> float := SFdiv prec emax.
Definition ltb : float -> float -> bool := SFltb.
Definition leb : float -> float -> bool := SFleb.
Definition eqb : float -> float -> bool := SFeqb.
Definition nan : float := S754_nan.

Definition is_nan (x : float) : bool :=
  match x with
  | S754_nan => true
  | _ => false
  end.

(** The double of an integer, and of the decimal literal [a/b] (the quotient
    of two exact integers, correctly rounded). *)
Definition of_Z (z : Z) : float := binary_normalize prec emax z 0 false.
Definition of_nat (n : nat) : float := of_Z (Z.of_nat n).
Definition dec (a b : Z) : float := div (of_Z a) (of_Z b).

(** Python's [min(a, b)] and [max(a, b)]. *)
Definition py_min (a b : float) : float := if ltb b a then b else a.
Definition py_max (a b : float) : float := if ltb a b then b else a.

(** [numpy.linspace(start, stop, num)] on doubles:
    [delta = stop - start], [step = delta / div] with [div = num - 1],
    [y = arange(0, num) * step] (or [arange(0, num) / div * delta] when the
    step is zero), [y += start], and at last [y[-1] = stop]. *)
Definition linspace (start stop : float) (num : nat) : list float :=
  match num with
  | O => []
  | S O => [add (mul (of_nat 0) (sub stop start)) start]
  | S div_ =>
      let delta := sub stop start in
      let step := div delta (of_nat div_) in
      let y :=
        if eqb step (of_Z 0)
        then map (fun i => mul (div (of_nat i) (of_nat div_)) delta) (seq 0 num)
        else map (fun i => mul (of_nat i) step) (seq 0 num) in
      let y := map (fun v => add v start) y in
      <[div_ := stop]> y
  end.

(** [numpy.argmin] on doubles.  The scan keeps the least entry so far [mp]
    and its index, moves on [!(x >= mp)], that is on a smaller entry or a
    [nan], and stops at the first [nan]. *)
Fixpoint argmin_from (mp : float) (min_ind : nat) (i : nat) (ip : list float)
    : nat :=
  match ip with
  | [] => min_ind
  | x :: rest =>
      if negb (leb mp x) then
        if is_nan x then i else argmin_from x i (S i) rest
      else argmin_from mp min_ind (S i) rest
  end.

Definition argmin (v : list float) : nat :=
  match v with
  | [] => O
  | mp :: rest => if is_nan mp then O else argmin_from mp 0 1 rest
  end.

(** [numpy.argmax]: the same with [!(x <= mp)]. *)
Fixpoint argmax_from (mp : float) (max_ind : nat) (i : nat) (ip : list float)
    : nat :=
  match ip with
  | [] => max_ind
  | x :: rest =>
      if negb (leb x mp) then
        if is_nan x then i else argmax_from x i (S i) rest
      else argmax_from mp max_ind (S i) rest
  end.

Definition argmax (v : list float) : nat :=
  match v with
  | [] => O
  | mp :: rest => if is_nan mp then O else argmax_from mp 0 1 rest
  end.

Definition np_empty (heap : nat -> float) (n : nat) : list float :=
  map heap (seq 0 n).

(** The array [f(qv) - xij*qv]; the flux acts entry by entry. *)
Definition values (f : float -> float) (qv : list float) (xij : float)
    : list float :=
  map (fun p => sub (fst p) (snd p)) (combine (map f qv) (map (mul xij) qv)).

Fixpoint qtilde_loop (sel : list float -> nat) (f : float -> float)
    (qv : list float) (j : nat) (xi : list float) (Qbuf : list float)
    : list float :=
  match xi with
  | [] => Qbuf
  | xij :: rest =>
      let i := sel (values f qv xij) in
      qtilde_loop sel f qv (S j) rest (<[j := nth i qv nan]> Qbuf)
  end.

Definition qtilde (sel : list float -> nat) (heap : nat -> float)
    (f : float -> float) (qv : list float) (xi : list float) : list float :=
  let Qbuf := np_empty heap (length xi) in
  qtilde_loop sel f qv 0 xi Qbuf.

Definition osher_solution (heap : nat -> float) (f : float -> float)
    (q_left q_right : float) : outcome (list float -> list float) :=
  let q_min := py_min q_left q_right in
  let q_max := py_max q_left q_right in
  let qv := linspace q_min q_max num_points in
  if leb q_left q_right
  then Returns (qtilde argmin heap f qv)
  else Returns (qtilde argmax heap f qv).

(** *** Vocabulary of the statements *)

Definition grid (q_left q_right : float) : list float :=
  linspace (py_min q_left q_right) (py_max q_left q_right) num_points.

Definition evaluator (heap : nat -> float) (f : float -> float)
    (q_left q_right : float) : list float -> list float :=
  match osher_solution heap f q_left q_right with
  | Returns ev => ev
  | Raises _ => fun _ => []
  end.

(** The computed objective, [f(q) - xi*q] in doubles. *)
Definition objective (f : float -> float) (xi q : float) : float :=
  sub (f q) (mul xi q).

Definition pick (sel : list float -> nat) (f : float -> float)
    (qv : list float) (xij : float) : float :=
  nth (sel (values f qv xij)) qv nan.

Definition scan (q_left q_right : float) : list float -> nat :=
  if leb q_left q_right then argmin else argmax.

(** No entry is [nan]. *)
Definition no_nan (v : list float) : bool := forallb (fun x => negb (is_nan x)) v.

(** [r] is the index of the first least entry of [v]. *)
Definition first_min (v : list float) (r : nat) : Prop :=
  exists x, v !! r = Some x
    /\ (forall k y, v !! k = Some y -> leb x y = true)
    /\ (forall k y, v !! k = Some y -> (k < r)%nat -> ltb x y = true).

(** [r] is the index of the first greatest entry of [v]. *)
Definition first_max (v : list float) (r : nat) : Prop :=
  exists x, v !! r = Some x
    /\ (forall k y, v !! k = Some y -> leb y x = true)
    /\ (forall k y, v !! k = Some y -> (k < r)%nat -> ltb y x = true).

(** [r] is the index of the first [nan] of [v]. *)
Definition first_nan (v : list float) (r : nat) : Prop :=
  v !! r = Some nan
  /\ forall k y, v !! k = Some y -> (k < r)%nat -> is_nan y = false.

(** The order of the doubles that are not [nan], read on triples of
    integers compared lexicographically: class, exponent, mantissa. *)
Definition rank (x : float) : Z * Z * Z :=
  match x with
  | S754_infinity true => (-2, 0, 0)
  | S754_finite true m e => (-1, - e, Zneg m)
  | S754_zero _ => (0, 0, 0)
  | S754_nan => (0, 0, 0)
  | S754_finite false m e => (1, e, Zpos m)
  | S754_infinity false => (2, 0, 0)
  end%Z.

Definition lex_compare (a b : Z * Z * Z) : comparison :=
  let '(a1, a2, a3) := a in
  let '(b1, b2, b3) := b in
  match a1 ?= b1 with
  | Eq => match a2 ?= b2 with
          | Eq => a3 ?= b3
          | r => r
          end
  | r => r
  end%Z.

Definition lex_le (a b : Z * Z * Z) : Prop :=
  let '(a1, a2, a3) := a in
  let '(b1, b2, b3) := b in
  (a1 < b1 \/ (a1 = b1 /\ (a2 < b2 \/ (a2 = b2 /\ a3 <= b3))))%Z.

Definition lex_lt (a b : Z * Z * Z) : Prop :=
  let '(a1, a2, a3) := a in
  let '(b1, b2, b3) := b in
  (a1 < b1 \/ (a1 = b1 /\ (a2 < b2 \/ (a2 = b2 /\ a3 < b3))))%Z.

(** The rational number a finite double stands for ([0] for the others). *)
Definition B2Q (x : float) : Q :=
  match x with
  | S754_finite s m e =>
      (if s then - (inject_Z (Zpos m) * 2 ^ e) else inject_Z (Zpos m) * 2 ^ e)%Q
  | _ => 0%Q
  end.



(** [lo <= q <= hi] on doubles. *)
Definition within (lo hi q : float) : bool := leb lo q && leb q hi.

(** The index of the first [nan] from position [i] on, if there is one. *)
Fixpoint find_nan (v : list float) (i : nat) : option nat :=
  match v with
  | [] => None
  | x :: t => if is_nan x then Some i else find_nan t (S i)
  end.

(** The same double, bit for bit (all [nan] are one value here). *)
Definition same_double (x y : float) : bool :=
  match x, y with
  | S754_zero s, S754_zero s' => Bool.eqb s s'
  | S754_infinity s, S754_infinity s' => Bool.eqb s s'
  | S754_nan, S754_nan => true
  | S754_finite s m e, S754_finite s' m' e' =>
      Bool.eqb s s' && Pos.eqb m m' && Z.eqb e e'
  | _, _ => false
  end.

End B64.

(** * Properties *)

(** ** The scans [argmin] and [argmax] *)

Lemma argmin_from_spec (t : list Q) :
  forall (pre : list Q) (best_i : nat) (best : Q),
    pre !! best_i = Some best ->
    (forall k y, pre !! k = Some y -> best <= y) ->
    (forall k y, pre !! k = Some y -> (k < best_i)%nat -> best < y) ->
    first_min (pre ++ t) (argmin_from best_i best (length pre) t).
Proof.
  induction t as [|x t IH]; intros pre bi b Hb Hle Hlt; simpl.
  - rewrite app_nil_r. exists b. auto.
  - assert (Hlen : length (pre ++ [x]) = S (length pre))
      by (rewrite length_app; simpl; lia).
    destruct (Qlt_le_dec x b) as [Hx|Hx].
    + specialize (IH (pre ++ [x]) (length pre) x).
      rewrite Hlen, <- app_assoc in IH. apply IH.
      * apply list_lookup_middle. reflexivity.
      * intros k y Hk. apply lookup_snoc_Some in Hk as [[_ Hk]|[_ ->]].
        -- specialize (Hle _ _ Hk). lra.
        -- lra.
      * intros k y Hk Hklt. apply lookup_snoc_Some in Hk as [[_ Hk]|[-> _]].
        -- specialize (Hle _ _ Hk). lra.
        -- lia.
    + specialize (IH (pre ++ [x]) bi b).
      rewrite Hlen, <- app_assoc in IH. apply IH.
      * apply lookup_app_l_Some. exact Hb.
      * intros k y Hk. apply lookup_snoc_Some in Hk as [[_ Hk]|[_ ->]].
        -- eauto.
        -- exact Hx.
      * intros k y Hk Hklt. apply lookup_snoc_Some in Hk as [[_ Hk]|[-> _]].
        -- eauto.
        -- apply lookup_lt_Some in Hb. lia.
Qed.

Lemma argmin_first_min (v : list Q) : v <> [] -> first_min v (argmin v).
Proof.
  destruct v as [|x t]; [congruence|intros _].
  unfold argmin. change (x :: t) with ([x] ++ t).
  change 1%nat with (length [x]). apply argmin_from_spec.
  - reflexivity.
  - intros [|k] y Hk; simpl in Hk; [injection Hk as <-; lra|].
    rewrite lookup_nil in Hk. discriminate.
  - intros k y _ Hk. lia.
Qed.

(** [argmax] scans like [argmin] on the negated values. *)
Lemma argmax_from_argmin_from (v : list Q) :
  forall best_i best i,
    argmax_from best_i best i v
    = argmin_from best_i (- best) i (map Qopp v).
Proof.
  induction v as [|x t IH]; intros bi b i; simpl; [reflexivity|].
  destruct (Qlt_le_dec b x), (Qlt_le_dec (- x) (- b)); try lra; apply IH.
Qed.

Lemma argmax_argmin (v : list Q) : argmax v = argmin (map Qopp v).
Proof.
  destruct v as [|x t]; [reflexivity|]. apply argmax_from_argmin_from.
Qed.

Lemma argmax_first_max (v : list Q) : v <> [] -> first_max v (argmax v).
Proof.
  intros Hv. rewrite argmax_argmin.
  destruct (argmin_first_min (map Qopp v)) as (x & Hx & Hle & Hlt).
  { destruct v; [congruence|discriminate]. }
  rewrite list_lookup_fmap in Hx.
  destruct (v !! argmin (map Qopp v)) as [m|] eqn:Hm; [|discriminate].
  injection Hx as <-.
  exists m. split; [exact Hm|]. split.
  - intros k y Hk.
    assert (H : - m <= - y)
      by (apply (Hle k); rewrite list_lookup_fmap, Hk; reflexivity).
    lra.
  - intros k y Hk Hkr.
    assert (H : - m < - y)
      by (apply (Hlt k); [rewrite list_lookup_fmap, Hk; reflexivity|exact Hkr]).
    lra.
Qed.

(** ** The grid [linspace] *)

Lemma length_linspace (a b : Q) (n : nat) : length (linspace a b n) = n.
Proof.
  destruct n as [|[|d]]; [reflexivity..|].
  unfold linspace. rewrite length_app, length_map, length_seq. simpl. lia.
Qed.

Lemma Qnat_le (i k : nat) : (i <= k)%nat -> Qnat i <= Qnat k.
Proof. intros H. unfold Qnat. rewrite <- Zle_Qle. lia. Qed.

Lemma Qnat_pos (d : nat) : 0 < Qnat (S d).
Proof. unfold Qnat. replace 0 with (inject_Z 0) by reflexivity. rewrite <- Zlt_Qlt. lia. Qed.

(** Entry [i] of a grid of [d + 2] points: the affine formula below the
    last index, [stop] at the last. *)
Lemma lookup_linspace (a b : Q) (d i : nat) (x : Q) :
  linspace a b (S (S d)) !! i = Some x <->
  ((i < S d)%nat /\ x = Qnat i * ((b - a) / Qnat (S d)) + a)
  \/ (i = S d /\ x = b).
Proof.
  unfold linspace.
  set (g := fun i : nat => Qnat i * ((b - a) / Qnat (S d)) + a).
  assert (Hlen : length (map g (seq 0 (S d))) = S d)
    by (rewrite length_map, length_seq; reflexivity).
  rewrite lookup_snoc_Some, Hlen, list_lookup_fmap.
  split.
  - intros [[Hi Hx]|[-> ->]]; [left|right; auto].
    split; [exact Hi|].
    rewrite (lookup_seq_lt 0 (S d) i Hi) in Hx. injection Hx as <-. reflexivity.
  - intros [[Hi ->]|[-> ->]]; [left|right; auto].
    split; [exact Hi|]. rewrite (lookup_seq_lt 0 (S d) i Hi). reflexivity.
Qed.

Section Step.
Variables (a b : Q) (d : nat).
Hypothesis Hab : a <= b.

Let step := (b - a) / Qnat (S d).

Lemma step_nonneg : 0 <= step.
Proof.
  unfold step, Qdiv. apply Qmult_le_0_compat; [lra|].
  apply Qinv_le_0_compat. pose proof (Qnat_pos d). lra.
Qed.

Lemma step_total : Qnat (S d) * step == b - a.
Proof.
  unfold step. field. pose proof (Qnat_pos d). lra.
Qed.

Lemma step_mono (i k : nat) :
  (i <= k)%nat -> Qnat i * step + a <= Qnat k * step + a.
Proof.
  intros Hik. apply Qplus_le_l.
  apply Qmult_le_compat_r; [apply Qnat_le, Hik|apply step_nonneg].
Qed.

Lemma step_below_stop (i : nat) :
  (i <= S d)%nat -> Qnat i * step + a <= b.
Proof.
  intros Hi. pose proof (step_mono i (S d) Hi) as H.
  pose proof step_total. lra.
Qed.

Lemma step_above_start (i : nat) : a <= Qnat i * step + a.
Proof.
  pose proof (step_mono 0 i ltac:(lia)) as H.
  change (Qnat 0) with 0 in H. lra.
Qed.
End Step.

(** Every grid point lies between the two end points. *)
Lemma linspace_bounds (a b : Q) (n i : nat) (x : Q) :
  a <= b -> linspace a b n !! i = Some x -> a <= x <= b.
Proof.
  intros Hab Hx.
  destruct n as [|[|d]].
  - apply lookup_lt_Some in Hx. rewrite length_linspace in Hx. lia.
  - pose proof (lookup_lt_Some _ _ _ Hx) as Hi.
    rewrite length_linspace in Hi.
    destruct i; try lia.
    injection Hx as <-. lra.
  - apply lookup_linspace in Hx as [[Hi ->]|[-> ->]].
    + split; [apply step_above_start|apply step_below_stop]; auto; lia.
    + lra.
Qed.

(** With equal end points every grid point is that number. *)
Lemma linspace_degenerate (c : Q) (n i : nat) (x : Q) :
  linspace c c n !! i = Some x -> x == c.
Proof.
  intros Hx. apply linspace_bounds in Hx; lra.
Qed.

(** ** The evaluator *)

Lemma values_map (f : Q -> Q) (qv : list Q) (xij : Q) :
  values f qv xij = map (objective f xij) qv.
Proof.
  unfold values, np_sub, np_scale.
  induction qv as [|q t IH]; [reflexivity|].
  simpl. rewrite IH. reflexivity.
Qed.

Lemma length_values (f : Q -> Q) (qv : list Q) (xij : Q) :
  length (values f qv xij) = length qv.
Proof. rewrite values_map. apply length_map. Qed.

(** The loop fills the buffer from [j] on and leaves what is below [j]. *)
Lemma qtilde_loop_spec (sel : list Q -> nat) (f : Q -> Q) (qv xi : list Q) :
  forall (j : nat) (Qbuf : list Q),
    length Qbuf = (j + length xi)%nat ->
    qtilde_loop sel f qv j xi Qbuf = take j Qbuf ++ map (pick sel f qv) xi.
Proof.
  induction xi as [|xij rest IH]; intros j Qbuf Hlen; simpl in *.
  - rewrite app_nil_r, take_ge; [reflexivity|lia].
  - rewrite IH by (rewrite length_insert; lia).
    rewrite (take_S_r _ j (nth (sel (values f qv xij)) qv 0))
      by (apply list_lookup_insert_eq; lia).
    rewrite take_insert_ge by lia.
    rewrite <- app_assoc. reflexivity.
Qed.

(** Whatever the fresh buffer holds, the closure returns the selected grid
    point of every query, in order. *)
Lemma qtilde_map (sel : list Q -> nat) (heap : nat -> Q) (f : Q -> Q)
    (qv xi : list Q) :
  qtilde sel heap f qv xi = map (pick sel f qv) xi.
Proof.
  unfold qtilde. rewrite qtilde_loop_spec.
  - reflexivity.
  - unfold np_empty. rewrite length_map, length_seq. reflexivity.
Qed.

Lemma osher_solution_returns (heap : nat -> Q) (f : Q -> Q) (q_left q_right : Q) :
  osher_solution heap f q_left q_right
  = Returns (evaluator heap f q_left q_right).
Proof.
  unfold evaluator, osher_solution.
  destruct (Qle_bool q_left q_right); reflexivity.
Qed.

Lemma evaluator_map (heap : nat -> Q) (f : Q -> Q) (q_left q_right : Q)
    (xi : list Q) :
  evaluator heap f q_left q_right xi
  = map (pick (scan q_left q_right) f (grid q_left q_right)) xi.
Proof.
  unfold evaluator, osher_solution, scan, grid.
  destruct (Qle_bool q_left q_right); apply qtilde_map.
Qed.

Lemma length_evaluator (heap : nat -> Q) (f : Q -> Q) (q_left q_right : Q)
    (xi : list Q) :
  length (evaluator heap f q_left q_right xi) = length xi.
Proof. rewrite evaluator_map. apply length_map. Qed.

Lemma length_grid (q_left q_right : Q) :
  length (grid q_left q_right) = num_points.
Proof. apply length_linspace. Qed.

Lemma grid_nonempty (q_left q_right : Q) : grid q_left q_right <> [].
Proof.
  intros H. pose proof (length_grid q_left q_right) as Hl.
  rewrite H in Hl. discriminate Hl.
Qed.

Lemma py_min_le_py_max (a b : Q) : py_min a b <= py_max a b.
Proof.
  unfold py_min, py_max.
  destruct (Qlt_le_dec b a), (Qlt_le_dec a b); lra.
Qed.

(** The selected point with the argmin scan: a grid point at the index of
    the first minimum of the objective. *)
Lemma pick_argmin (f : Q -> Q) (qv : list Q) (xij : Q) :
  qv <> [] ->
  exists i, qv !! i = Some (pick argmin f qv xij)
    /\ first_min (values f qv xij) i.
Proof.
  intros Hqv.
  assert (Hv : values f qv xij <> []).
  { intros H. apply (f_equal length) in H. rewrite length_values in H.
    destruct qv; [congruence|discriminate]. }
  pose proof (argmin_first_min _ Hv) as Hfm.
  exists (argmin (values f qv xij)). split; [|exact Hfm].
  destruct Hfm as (x & Hx & _). apply lookup_lt_Some in Hx.
  rewrite length_values in Hx. unfold pick.
  destruct (nth_lookup_or_length qv (argmin (values f qv xij)) 0); [assumption|lia].
Qed.

Lemma pick_argmax (f : Q -> Q) (qv : list Q) (xij : Q) :
  qv <> [] ->
  exists i, qv !! i = Some (pick argmax f qv xij)
    /\ first_max (values f qv xij) i.
Proof.
  intros Hqv.
  assert (Hv : values f qv xij <> []).
  { intros H. apply (f_equal length) in H. rewrite length_values in H.
    destruct qv; [congruence|discriminate]. }
  pose proof (argmax_first_max _ Hv) as Hfm.
  exists (argmax (values f qv xij)). split; [|exact Hfm].
  destruct Hfm as (x & Hx & _). apply lookup_lt_Some in Hx.
  rewrite length_values in Hx. unfold pick.
  destruct (nth_lookup_or_length qv (argmax (values f qv xij)) 0); [assumption|lia].
Qed.

Lemma scan_le (q_left q_right : Q) :
  q_left <= q_right -> scan q_left q_right = argmin.
Proof.
  intros H. unfold scan. apply Qle_bool_iff in H. rewrite H. reflexivity.
Qed.

Lemma scan_gt (q_left q_right : Q) :
  q_right < q_left -> scan q_left q_right = argmax.
Proof.
  intros H. unfold scan.
  destruct (Qle_bool q_left q_right) eqn:E; [|reflexivity].
  apply Qle_bool_iff in E. lra.
Qed.

(** Whichever scan is used, the selected point is on the grid. *)
Lemma pick_on_grid (f : Q -> Q) (q_left q_right xij : Q) :
  exists i,
    grid q_left q_right !! i
    = Some (pick (scan q_left q_right) f (grid q_left q_right) xij).
Proof.
  unfold scan. destruct (Qle_bool q_left q_right).
  - destruct (pick_argmin f _ xij (grid_nonempty q_left q_right)) as (i & Hi & _).
    eauto.
  - destruct (pick_argmax f _ xij (grid_nonempty q_left q_right)) as (i & Hi & _).
    eauto.
Qed.

Lemma py_min_same (c : Q) : py_min c c = c.
Proof. unfold py_min. destruct (Qlt_le_dec c c); reflexivity. Qed.

Lemma py_max_same (c : Q) : py_max c c = c.
Proof. unfold py_max. destruct (Qlt_le_dec c c); reflexivity. Qed.

(** C5: with [q_left = q_right = c] the call returns an evaluator, and that
    evaluator answers [c] to every query. *)
Theorem degenerate_constant (heap : nat -> Q) (f : Q -> Q) (c : Q)
    (xi : list Q) :
  osher_solution heap f c c = Returns (evaluator heap f c c)
  /\ length (evaluator heap f c c xi) = length xi
  /\ Forall (fun q => q == c) (evaluator heap f c c xi).
Proof.
  split; [apply osher_solution_returns|].
  split; [apply length_evaluator|].
  rewrite evaluator_map. apply Forall_fmap, Forall_true. intros xij. simpl.
  destruct (pick_on_grid f c c xij) as [i Hi].
  unfold grid in Hi at 1. rewrite py_min_same, py_max_same in Hi.
  apply linspace_degenerate in Hi. exact Hi.
Qed.

(** ** The full solve *)

Lemma bind_Returns {A B : Type} (a : A) (k : A -> outcome B) :
  (Returns a ≫= k) = k a.
Proof. reflexivity. Qed.

(** With both bounds given the call returns, and these are the arrays. *)
Lemma nonconvex_solutions_given (heap : nat -> Q) (f : Q -> Q)
    (q_left q_right a b : Q) :
  nonconvex_solutions heap f q_left q_right (Some a) (Some b)
  = Returns
      (mkSolutions
         (linspace a b num_points)
         (evaluator heap f q_left q_right (linspace a b num_points))
         ([py_min q_left q_right]
            ++ np_scale (1#2) (np_add (removelast (grid q_left q_right))
                                      (tail (grid q_left q_right)))
            ++ [py_max q_left q_right])
         ([if Qle_bool q_left q_right then Fin a else Fin b]
            ++ char_speeds f (grid q_left q_right)
            ++ [if Qle_bool q_left q_right then Fin b else Fin a])).
Proof.
  unfold nonconvex_solutions. rewrite osher_solution_returns, bind_Returns.
  unfold linspace_obj. rewrite bind_Returns.
  unfold xi_bounds, grid.
  destruct (Qle_bool q_left q_right); reflexivity.
Qed.

(** With a bound missing the call stops at [linspace(xi_left, xi_right, 1000)],
    before the statements that would supply the bound. *)
Lemma nonconvex_solutions_missing (heap : nat -> Q) (f : Q -> Q)
    (q_left q_right : Q) (xi_left xi_right : option Q) :
  xi_left = None \/ xi_right = None ->
  nonconvex_solutions heap f q_left q_right xi_left xi_right = Raises TypeError.
Proof.
  intros H. unfold nonconvex_solutions.
  rewrite osher_solution_returns, bind_Returns.
  replace (linspace_obj xi_left xi_right num_points)
    with (@Raises (list Q) TypeError); [reflexivity|].
  unfold linspace_obj.
  destruct H as [-> | ->]; [reflexivity|destruct xi_left; reflexivity].
Qed.

Lemma midpoints_source (qv : list Q) :
  np_scale (1#2) (np_add (removelast qv) (tail qv)) = midpoints qv.
Proof.
  unfold np_scale, np_add.
  induction qv as [|a [|b t] IH]; [reflexivity..|].
  change (removelast (a :: b :: t)) with (a :: removelast (b :: t)).
  change (tail (a :: b :: t)) with (b :: tail (b :: t)).
  change (combine (a :: removelast (b :: t)) (b :: tail (b :: t)))
    with ((a, b) :: combine (removelast (b :: t)) (tail (b :: t))).
  rewrite !map_cons, IH. reflexivity.
Qed.

Lemma np_diff_source (f : Q -> Q) (qv : list Q) :
  np_diff (map f qv) = forward_differences f qv.
Proof.
  unfold np_diff, np_sub.
  induction qv as [|a [|b t] IH]; [reflexivity..|].
  change (map f (a :: b :: t)) with (f a :: f b :: map f t).
  change (map f (b :: t)) with (f b :: map f t) in IH.
  change (removelast (f a :: f b :: map f t))
    with (f a :: removelast (f b :: map f t)).
  change (tail (f a :: f b :: map f t)) with (f b :: tail (f b :: map f t)).
  change (combine (f b :: tail (f b :: map f t))
                  (f a :: removelast (f b :: map f t)))
    with ((f b, f a) :: combine (tail (f b :: map f t))
                                (removelast (f b :: map f t))).
  rewrite map_cons, IH. reflexivity.
Qed.

Lemma length_midpoints (qv : list Q) :
  length (midpoints qv) = (length qv - 1)%nat.
Proof.
  induction qv as [|a [|b t] IH]; [reflexivity..|].
  change (midpoints (a :: b :: t)) with ((1#2) * (a + b) :: midpoints (b :: t)).
  simpl length in *. lia.
Qed.

Lemma length_forward_differences (f : Q -> Q) (qv : list Q) :
  length (forward_differences f qv) = (length qv - 1)%nat.
Proof.
  induction qv as [|a [|b t] IH]; [reflexivity..|].
  change (forward_differences f (a :: b :: t))
    with ((f b - f a) :: forward_differences f (b :: t)).
  simpl length in *. lia.
Qed.

Lemma char_speeds_source (f : Q -> Q) (qv : list Q) :
  char_speeds f qv
  = map (fun d => np_div d (spacing qv)) (forward_differences f qv).
Proof. unfold char_speeds. rewrite np_diff_source. reflexivity. Qed.

Lemma length_char_speeds (f : Q -> Q) (qv : list Q) :
  length (char_speeds f qv) = (length qv - 1)%nat.
Proof.
  rewrite char_speeds_source, length_map. apply length_forward_differences.
Qed.

Lemma lookup_forward_differences (f : Q -> Q) (qv : list Q) :
  forall (i : nat) (q q' : Q),
    qv !! i = Some q -> qv !! S i = Some q' ->
    forward_differences f qv !! i = Some (f q' - f q).
Proof.
  induction qv as [|a [|b t] IH]; intros i q q' Hi HSi; [discriminate..|].
  change (forward_differences f (a :: b :: t))
    with ((f b - f a) :: forward_differences f (b :: t)).
  destruct i as [|i].
  - injection Hi as <-. injection HSi as <-. reflexivity.
  - apply (IH i q q'); assumption.
Qed.

(** C2: a call that omits [xi_left], [xi_right] or both does not return the
    sampled solution.  It raises TypeError at
    [xi = linspace(xi_left, xi_right, 1000)], which the source runs before
    the two statements [if xi_left is None: ...] and
    [if xi_right is None: ...] that derive the missing bounds. *)
Theorem missing_bounds_raise (heap : nat -> Q) (f : Q -> Q)
    (q_left q_right x : Q) :
  nonconvex_solutions heap f q_left q_right None None = Raises TypeError
  /\ nonconvex_solutions heap f q_left q_right None (Some x) = Raises TypeError
  /\ nonconvex_solutions heap f q_left q_right (Some x) None = Raises TypeError.
Proof.
  repeat split; apply nonconvex_solutions_missing; auto.
Qed.

(** C4, as stated, fails: with [q_left = q_right = 0] neither
    [osher_solution] nor a full solve with both bounds given raises
    anything. *)
Lemma degenerate_data_no_error :
  (forall e, osher_solution (fun _ => 0) (fun q => q) 0 0 <> Raises e)
  /\ (forall e,
        nonconvex_solutions (fun _ => 0) (fun q => q) 0 0 (Some (-1)) (Some 1)
        <> Raises e).
Proof.
  split; intros e.
  - rewrite osher_solution_returns. discriminate.
  - rewrite nonconvex_solutions_given. discriminate.
Qed.

(** C4, amended: solving with [q_left = q_right = c] does not fail.
    [osher_solution] returns an evaluator built on the zero-width grid of
    1000 points all equal to [c], and a full solve with both bounds given
    returns its four arrays. *)
Theorem degenerate_data_returns (heap : nat -> Q) (f : Q -> Q) (c a b : Q) :
  (exists ev, osher_solution heap f c c = Returns ev)
  /\ length (grid c c) = 1000%nat
  /\ Forall (fun q => q == c) (grid c c)
  /\ (exists s, nonconvex_solutions heap f c c (Some a) (Some b) = Returns s).
Proof.
  split; [eexists; apply osher_solution_returns|].
  split; [apply length_grid|].
  split; [|eexists; apply nonconvex_solutions_given].
  apply Forall_lookup_2. intros i q Hi.
  unfold grid in Hi. rewrite py_min_same, py_max_same in Hi.
  exact (linspace_degenerate c _ i q Hi).
Qed.

(** C8: with both bounds given, [xi_left = a] and [xi_right = b], the call
    returns; [q_char] is [q_min], then the midpoints of the grid, then
    [q_max], 1001 entries for the 1000-point grid; [xi_char] is the
    finite-difference speeds between two paddings, [a] first and [b] last
    when [q_left <= q_right], [b] first and [a] last otherwise; the two
    arrays are equally long. *)
Theorem characteristic_trace (heap : nat -> Q) (f : Q -> Q)
    (q_left q_right a b : Q) :
  exists s lo hi,
    nonconvex_solutions heap f q_left q_right (Some a) (Some b) = Returns s
    /\ sol_q_char s
       = [py_min q_left q_right] ++ midpoints (grid q_left q_right)
           ++ [py_max q_left q_right]
    /\ length (sol_q_char s) = S (length (grid q_left q_right))
    /\ length (grid q_left q_right) = 1000%nat
    /\ sol_xi_char s
       = [lo]
           ++ map (fun d => np_div d (spacing (grid q_left q_right)))
                (forward_differences f (grid q_left q_right))
           ++ [hi]
    /\ (q_left <= q_right -> lo = Fin a /\ hi = Fin b)
    /\ (q_right < q_left -> lo = Fin b /\ hi = Fin a)
    /\ length (sol_xi_char s) = length (sol_q_char s).
Proof.
  eexists _, _, _. split; [apply nonconvex_solutions_given|].
  cbv beta iota delta [sol_q_char sol_xi_char].
  rewrite midpoints_source, char_speeds_source.
  split; [reflexivity|].
  split.
  { rewrite !length_app, length_midpoints, length_grid. reflexivity. }
  split; [apply length_grid|].
  split; [reflexivity|].
  split.
  { intros H. apply Qle_bool_iff in H. rewrite H. auto. }
  split.
  { intros H. destruct (Qle_bool q_left q_right) eqn:E; [|auto].
    apply Qle_bool_iff in E. lra. }
  rewrite !length_app, length_map, length_forward_differences, length_midpoints.
  reflexivity.
Qed.

(** C9: the outputs do not depend on what the freshly allocated buffer
    holds.  Two applications of the evaluator to one sequence of queries
    give the same array, and two full solves on the same inputs give the
    same outcome. *)
Theorem solve_deterministic (heap1 heap2 : nat -> Q) (f : Q -> Q)
    (q_left q_right : Q) (xi : list Q) (xi_left xi_right : option Q) :
  evaluator heap1 f q_left q_right xi = evaluator heap2 f q_left q_right xi
  /\ nonconvex_solutions heap1 f q_left q_right xi_left xi_right
     = nonconvex_solutions heap2 f q_left q_right xi_left xi_right.
Proof.
  split.
  - rewrite !evaluator_map. reflexivity.
  - destruct xi_left as [a|], xi_right as [b|].
    + rewrite !nonconvex_solutions_given, !evaluator_map. reflexivity.
    + rewrite !nonconvex_solutions_missing by auto. reflexivity.
    + rewrite !nonconvex_solutions_missing by auto. reflexivity.
    + rewrite !nonconvex_solutions_missing by auto. reflexivity.
Qed.

(** ** The default similarity domain *)

(** The spacing of a grid of at least three points is one step. *)
Lemma spacing_linspace (a b : Q) (d : nat) :
  spacing (linspace a b (S (S (S d)))) == (b - a) / Qnat (S (S d)).
Proof.
  unfold spacing.
  rewrite (nth_lookup_Some _ 1 0 (Qnat 1 * ((b - a) / Qnat (S (S d))) + a))
    by (apply lookup_linspace; left; split; [lia|reflexivity]).
  rewrite (nth_lookup_Some _ 0 0 (Qnat 0 * ((b - a) / Qnat (S (S d))) + a))
    by (apply lookup_linspace; left; split; [lia|reflexivity]).
  change (Qnat 1) with 1. change (Qnat 0) with 0. ring.
Qed.

(** C7: the statements that derive default bounds never supply a bound.
    A call of [nonconvex_solutions] that returns was given both bounds, and
    the bounds after the two statements [if xi_left is None: ...] and
    [if xi_right is None: ...] are the given numbers, neither of the derived
    values [min(0, df_min) - 0.1*(df_max - df_min)] and
    [max(0, df_max) + 0.1*(df_max - df_min)].  A call with a bound to derive
    has raised TypeError at [xi = linspace(xi_left, xi_right, 1000)], which
    the source runs before those statements and before the speeds
    [dfdq] exist. *)
Theorem derived_bounds_unreachable (heap : nat -> Q) (f : Q -> Q)
    (q_left q_right : Q) (xi_left xi_right : option Q) :
  (forall sol,
     nonconvex_solutions heap f q_left q_right xi_left xi_right = Returns sol ->
     exists a b,
       xi_left = Some a /\ xi_right = Some b
       /\ xi_bounds (char_speeds f (grid q_left q_right)) xi_left xi_right
          = (Fin a, Fin b))
  /\ (xi_left = None \/ xi_right = None ->
      nonconvex_solutions heap f q_left q_right xi_left xi_right
      = Raises TypeError).
Proof.
  split; [|apply nonconvex_solutions_missing].
  intros sol H. destruct xi_left as [a|], xi_right as [b|].
  - exists a, b. split; [reflexivity|]. split; reflexivity.
  - rewrite nonconvex_solutions_missing in H by auto. discriminate H.
  - rewrite nonconvex_solutions_missing in H by auto. discriminate H.
  - rewrite nonconvex_solutions_missing in H by auto. discriminate H.
Qed.

(** ** Worked cases *)

(** The first call of the notebook with its bounds left out. *)
Example traffic_without_bounds :
  nonconvex_solutions (fun _ => 0) (fun q => q * (1 - q)) (1#10) (6#10)
    None None
  = Raises TypeError.
Proof. vm_compute. reflexivity. Qed.

(** * Further properties of the evaluator *)

(** ** The scans see only the order of the values *)

(** Adding one constant to every value, and replacing values by equal
    rationals, does not move the scan. *)
Lemma argmin_from_shift {A : Type} (h1 h2 : A -> Q) (k : Q) (l : list A) :
  forall best_i best best' i,
    (forall a, In a l -> h2 a == h1 a + k) ->
    best' == best + k ->
    argmin_from best_i best i (map h1 l)
    = argmin_from best_i best' i (map h2 l).
Proof.
  induction l as [|a t IH]; intros bi b b' i Hl Hb; [reflexivity|].
  assert (Ha : h2 a == h1 a + k) by (apply Hl; left; reflexivity).
  assert (Ht : forall a', In a' t -> h2 a' == h1 a' + k)
    by (intros a' H; apply Hl; right; exact H).
  simpl. destruct (Qlt_le_dec (h1 a) b), (Qlt_le_dec (h2 a) b'); try lra.
  - apply IH; assumption.
  - apply IH; assumption.
Qed.

Lemma argmin_shift {A : Type} (h1 h2 : A -> Q) (k : Q) (l : list A) :
  (forall a, In a l -> h2 a == h1 a + k) ->
  argmin (map h1 l) = argmin (map h2 l).
Proof.
  intros Hl. destruct l as [|a t]; [reflexivity|].
  simpl. apply (argmin_from_shift h1 h2 k).
  - intros a' H. apply Hl. right. exact H.
  - apply Hl. left. reflexivity.
Qed.

(** X1: the evaluator answers query by query.  On no queries it returns the
    empty array, and on a concatenation the concatenation of the answers. *)
Theorem evaluator_app (heap heap1 heap2 : nat -> Q) (f : Q -> Q)
    (q_left q_right : Q) (xs ys : list Q) :
  evaluator heap f q_left q_right [] = []
  /\ evaluator heap f q_left q_right (xs ++ ys)
     = evaluator heap1 f q_left q_right xs
         ++ evaluator heap2 f q_left q_right ys.
Proof.
  rewrite !evaluator_map. split; [reflexivity|apply map_app].
Qed.

Lemma py_min_swap (a b : Q) : b < a -> py_min b a = py_min a b.
Proof.
  intros H. unfold py_min.
  destruct (Qlt_le_dec a b), (Qlt_le_dec b a); try reflexivity; lra.
Qed.

Lemma py_max_swap (a b : Q) : b < a -> py_max b a = py_max a b.
Proof.
  intros H. unfold py_max.
  destruct (Qlt_le_dec a b), (Qlt_le_dec b a); try reflexivity; lra.
Qed.

(** X4: the two branches mirror each other.  For [q_left > q_right] the
    evaluator is the evaluator of the swapped data for the negated flux,
    asked at the negated queries. *)
Theorem evaluator_mirror (heap heap' : nat -> Q) (f : Q -> Q)
    (q_left q_right : Q) (xi : list Q) :
  q_right < q_left ->
  evaluator heap f q_left q_right xi
  = evaluator heap' (fun q => - f q) q_right q_left (map Qopp xi).
Proof.
  intros H. rewrite !evaluator_map, map_map. apply map_ext. intros x.
  rewrite (scan_gt _ _ H), (scan_le q_right q_left) by lra.
  unfold grid. rewrite (py_min_swap _ _ H), (py_max_swap _ _ H).
  unfold pick. f_equal. rewrite argmax_argmin, !values_map, map_map.
  apply (argmin_shift _ _ 0). intros q _. unfold objective. ring.
Qed.

Lemma evaluator_mirror_witness :
  evaluator (fun _ => 0) (fun q => q * q) 1 0 [0; 1]
  = evaluator (fun _ => 7) (fun q => - (q * q)) 0 1 (map Qopp [0; 1]).
Proof.
  apply (evaluator_mirror (fun _ => 0) (fun _ => 7) (fun q => q * q) 1 0 [0; 1]).
  reflexivity.
Defined.

(** ** The grid spacing *)

Lemma spacing_grid (q_left q_right : Q) :
  spacing (grid q_left q_right)
  == (py_max q_left q_right - py_min q_left q_right) / Qnat 999.
Proof.
  unfold grid. change num_points with (S (S (S 997))). apply spacing_linspace.
Qed.

(** * Further properties of the full solve *)

(** ** Degenerate data *)

(** X12: with [q_left = q_right] and a flux that gives equal values on
    equal numbers, the grid spacing is zero and every characteristic speed
    is [0/0 = nan]: the solve returns [xi_char] with [nan] between its two
    paddings, and the statements that derive default bounds yield
    [nan] for both. *)
Theorem degenerate_speeds_nan (heap : nat -> Q) (f : Q -> Q)
    (q_left q_right a b : Q) :
  q_left == q_right ->
  (forall x y, x == y -> f x == f y) ->
  Forall (fun s => s = NaN) (char_speeds f (grid q_left q_right))
  /\ length (char_speeds f (grid q_left q_right)) = 999%nat
  /\ xi_bounds (char_speeds f (grid q_left q_right)) None None = (NaN, NaN)
  /\ exists s lo hi,
       nonconvex_solutions heap f q_left q_right (Some a) (Some b) = Returns s
       /\ sol_xi_char s = [lo] ++ repeat NaN 999 ++ [hi].
Proof.
  intros Heq Hf.
  assert (Hgrid : forall i q, grid q_left q_right !! i = Some q -> q == q_left).
  { intros i q Hq. apply linspace_bounds in Hq; [|apply py_min_le_py_max].
    unfold py_min, py_max in Hq.
    destruct (Qlt_le_dec q_right q_left), (Qlt_le_dec q_left q_right); lra. }
  assert (Hh : spacing (grid q_left q_right) == 0).
  { assert (E : py_max q_left q_right - py_min q_left q_right == 0).
    { unfold py_min, py_max.
      destruct (Qlt_le_dec q_right q_left), (Qlt_le_dec q_left q_right); lra. }
    rewrite spacing_grid, E. unfold Qdiv. ring. }
  assert (Hlen : length (char_speeds f (grid q_left q_right)) = 999%nat).
  { rewrite length_char_speeds, length_grid. reflexivity. }
  assert (Hnan : Forall (fun s => s = NaN) (char_speeds f (grid q_left q_right))).
  { apply Forall_lookup_2. intros i s Hs.
    rewrite char_speeds_source, list_lookup_fmap in Hs.
    destruct (forward_differences f (grid q_left q_right) !! i) as [d|] eqn:Hd;
      [|discriminate].
    simpl in Hs. injection Hs as <-.
    assert (Hd0 : d == 0).
    { pose proof (lookup_lt_Some _ _ _ Hd) as Hi.
      rewrite length_forward_differences, length_grid in Hi.
      destruct (lookup_lt_is_Some_2 (grid q_left q_right) i) as [q Hq];
        [rewrite length_grid; lia|].
      destruct (lookup_lt_is_Some_2 (grid q_left q_right) (S i)) as [q' Hq'];
        [rewrite length_grid; change num_points with 1000%nat in *; lia|].
      rewrite (lookup_forward_differences f _ i q q' Hq Hq') in Hd.
      injection Hd as <-.
      assert (f q' == f q)
        by (apply Hf; rewrite (Hgrid _ _ Hq), (Hgrid _ _ Hq'); reflexivity).
      lra. }
    unfold np_div. apply Qeq_bool_iff in Hh. rewrite Hh.
    apply Qeq_alt in Hd0. rewrite Hd0. reflexivity. }
  assert (Hrep : char_speeds f (grid q_left q_right) = repeat NaN 999).
  { rewrite <- Hlen. clear Hlen.
    induction Hnan as [|s t -> _ IH]; [reflexivity|].
    simpl. f_equal. exact IH. }
  split; [exact Hnan|]. split; [exact Hlen|]. split.
  - rewrite Hrep. vm_compute. reflexivity.
  - eexists _, _, _. split; [apply nonconvex_solutions_given|].
    cbv beta iota delta [sol_xi_char]. rewrite Hrep. reflexivity.
Qed.

Lemma degenerate_speeds_nan_witness :
  Forall (fun s => s = NaN) (char_speeds (fun q => q * (1 - q)) (grid (1#2) (2#4)))
  /\ length (char_speeds (fun q => q * (1 - q)) (grid (1#2) (2#4))) = 999%nat
  /\ xi_bounds (char_speeds (fun q => q * (1 - q)) (grid (1#2) (2#4))) None None
     = (NaN, NaN)
  /\ exists s lo hi,
       nonconvex_solutions (fun _ => 0) (fun q => q * (1 - q)) (1#2) (2#4)
         (Some (-1)) (Some 1) = Returns s
       /\ sol_xi_char s = [lo] ++ repeat NaN 999 ++ [hi].
Proof.
  apply (degenerate_speeds_nan (fun _ => 0) (fun q => q * (1 - q))
           (1#2) (2#4) (-1) 1).
  - reflexivity.
  - intros x y H. rewrite H. reflexivity.
Defined.

(** * The plot function *)

Lemma make_plot_function_given (heap : nat -> Q) (f : Q -> Q)
    (q_left q_right a b : Q) :
  exists sol,
    nonconvex_solutions heap f q_left q_right (Some a) (Some b) = Returns sol
    /\ make_plot_function heap f q_left q_right (Some a) (Some b)
       = Returns (plot_function f q_left q_right a b sol).
Proof.
  eexists. split; [apply nonconvex_solutions_given|].
  unfold make_plot_function. rewrite nonconvex_solutions_given, bind_Returns.
  reflexivity.
Qed.

(** X13: a bound that is [None] is reported when the plot function is
    made: [make_plot_function] raises TypeError and returns no closure; with
    both bounds given it returns the closure. *)
Theorem make_plot_function_outcome (heap : nat -> Q) (f : Q -> Q)
    (q_left q_right a b : Q) :
  make_plot_function heap f q_left q_right None None = Raises TypeError
  /\ make_plot_function heap f q_left q_right None (Some b) = Raises TypeError
  /\ make_plot_function heap f q_left q_right (Some a) None = Raises TypeError
  /\ exists plot,
       make_plot_function heap f q_left q_right (Some a) (Some b) = Returns plot.
Proof.
  unfold make_plot_function at 1 2 3.
  rewrite !nonconvex_solutions_missing by auto.
  repeat split.
  destruct (make_plot_function_given heap f q_left q_right a b) as (sol & _ & H).
  eauto.
Qed.

Lemma plot_sizes_app (l1 l2 : list plt_call) :
  plot_sizes (l1 ++ l2) = plot_sizes l1 ++ plot_sizes l2.
Proof. apply flat_map_app. Qed.

Lemma In_plot_sizes (x y : list npfloat) (fmt : string) (lw : option nat)
    (lbl : option string) (calls : list plt_call) :
  In (plt_plot x y fmt lw lbl) calls ->
  In (length x, length y) (plot_sizes calls).
Proof.
  intros H. unfold plot_sizes. apply in_flat_map.
  eexists. split; [exact H|]. left. reflexivity.
Qed.

(** The five calls of [plot], for arrays of the lengths a solve returns. *)
Lemma plot_sizes_plot_function (f : Q -> Q) (q_left q_right a b : Q)
    (sol : solutions) (t : Q) (fig : Z) :
  length (sol_xi sol) = 1000%nat -> length (sol_q sol) = 1000%nat ->
  length (sol_q_char sol) = 1001%nat -> length (sol_xi_char sol) = 1001%nat ->
  plot_sizes (plot_function f q_left q_right a b sol t fig)
  = [(1001%nat, 1001%nat); (1002%nat, 1002%nat); (1000%nat, 1000%nat);
     (1000%nat, 1000%nat); (2%nat, 2%nat)].
Proof.
  intros Hxi Hq Hqc Hxc. unfold plot_function.
  rewrite !plot_sizes_app.
  replace (plot_sizes (if Z.eqb fig 0 then [plt_figure 12 5] else []))
    with (@nil (nat * nat)) by (destruct (Z.eqb fig 0); reflexivity).
  replace (plot_sizes (if Z.eqb fig 0 then [plt_show] else []))
    with (@nil (nat * nat)) by (destruct (Z.eqb fig 0); reflexivity).
  cbn [plot_sizes flat_map app].
  rewrite !length_map. cbn [length].
  rewrite !length_app, !length_map, length_linspace.
  rewrite Hxi, Hq, Hqc, Hxc. reflexivity.
Qed.

(** X14: for every [t] and [fig] the plot function calls [plot] five times:
    on 1001 points (the characteristic trace), 1002 (the solution with its
    two end points, from [(xi_left, q_left)] to [(xi_right, q_right)]), 1000
    (the flux), 1000 (the flux at the solution values) and 2 (the two
    states); every call receives as many x as y values. *)
Theorem plot_function_shapes (heap : nat -> Q) (f : Q -> Q)
    (q_left q_right a b : Q) :
  exists plot,
    make_plot_function heap f q_left q_right (Some a) (Some b) = Returns plot
    /\ forall t fig,
         plot_sizes (plot t fig)
         = [(1001%nat, 1001%nat); (1002%nat, 1002%nat); (1000%nat, 1000%nat);
            (1000%nat, 1000%nat); (2%nat, 2%nat)]
         /\ (forall x y fmt lw lbl,
               In (plt_plot x y fmt lw lbl) (plot t fig) -> length x = length y)
         /\ exists xs qs,
              In (plt_plot (map Fin ([a] ++ xs ++ [b]))
                           (map Fin ([q_left] ++ qs ++ [q_right]))
                           "k" (Some 2%nat) None)
                 (plot t fig)
              /\ length xs = 1000%nat /\ length qs = 1000%nat.
Proof.
  eexists. split.
  { unfold make_plot_function.
    rewrite nonconvex_solutions_given, bind_Returns. reflexivity. }
  intros t fig.
  assert (Hxi : length (linspace a b num_points) = 1000%nat)
    by apply length_linspace.
  assert (Hq : length (evaluator heap f q_left q_right (linspace a b num_points))
               = 1000%nat)
    by (rewrite length_evaluator; exact Hxi).
  match goal with
  | |- context [plot_function _ _ _ _ _ ?s t fig] =>
      pose proof (plot_sizes_plot_function f q_left q_right a b s t fig) as Hs;
      set (sol := s) in *
  end.
  assert (Hsizes : plot_sizes (plot_function f q_left q_right a b sol t fig)
                   = [(1001%nat, 1001%nat); (1002%nat, 1002%nat);
                      (1000%nat, 1000%nat); (1000%nat, 1000%nat);
                      (2%nat, 2%nat)]).
  { apply Hs.
    - exact Hxi.
    - exact Hq.
    - unfold sol. cbv beta iota delta [sol_q_char].
      rewrite midpoints_source, !length_app, length_midpoints, length_grid.
      reflexivity.
    - unfold sol. cbv beta iota delta [sol_xi_char].
      rewrite !length_app, length_char_speeds, length_grid. reflexivity. }
  split; [exact Hsizes|]. split.
  - intros x y fmt lw lbl Hin. apply In_plot_sizes in Hin.
    rewrite Hsizes in Hin.
    destruct Hin as [E|[E|[E|[E|[E|[]]]]]];
      injection E as E1 E2; rewrite <- E1, <- E2; reflexivity.
  - exists (map (fun x => x * t) (linspace a b num_points)),
           (evaluator heap f q_left q_right (linspace a b num_points)).
    split; [|split; [rewrite length_map; exact Hxi|exact Hq]].
    unfold plot_function.
    apply in_or_app. right. apply in_or_app. right.
    apply in_or_app. left. left. reflexivity.
Qed.

(** * The stripe masks *)

Lemma np_and_map {A : Type} (g h : A -> bool) (l : list A) :
  np_and (map g l) (map h l) = map (fun x => g x && h x) l.
Proof.
  unfold np_and. induction l as [|a t IH]; [reflexivity|].
  simpl. rewrite IH. reflexivity.
Qed.

(** The flag of each colour for one cell of tracer value [x]. *)
Lemma stripe_cells (tracer : list Q) :
  set_stripe_regions tracer !! "cornflowerblue"
  = Some (map (fun x => Qle_bool 0 x) tracer)
  /\ set_stripe_regions tracer !! "blue"
     = Some (map (fun x => Qle_bool (5#100) (np_mod x (1#10)) && Qle_bool 0 x)
               tracer)
  /\ set_stripe_regions tracer !! "salmon"
     = Some (map (fun x => Qle_bool x 0) tracer)
  /\ set_stripe_regions tracer !! "red"
     = Some (map (fun x => Qle_bool (5#100) (np_mod x (1#10)) && Qle_bool x 0)
               tracer).
Proof.
  unfold set_stripe_regions, np_ge, np_le.
  rewrite map_map, !np_and_map.
  repeat split; reflexivity.
Qed.

(** X15: the result has exactly the four colour keys, and every mask is as
    long as the tracer array. *)
Theorem stripe_masks_shape (tracer : list Q) (color : string) :
  (In color ["cornflowerblue"; "blue"; "salmon"; "red"] ->
     exists mask, set_stripe_regions tracer !! color = Some mask
       /\ length mask = length tracer)
  /\ (~ In color ["cornflowerblue"; "blue"; "salmon"; "red"] ->
     set_stripe_regions tracer !! color = None).
Proof.
  destruct (stripe_cells tracer) as (Hc & Hb & Hs & Hr). split.
  - intros [<-|[<-|[<-|[<-|[]]]]]; eexists; (split; [eassumption|]);
      apply length_map.
  - intros Hnot. unfold set_stripe_regions.
    rewrite !lookup_insert_ne, lookup_empty; [reflexivity|..];
      intros <-; apply Hnot; simpl; auto.
Qed.

Lemma stripe_masks_shape_witness :
  (exists mask, set_stripe_regions [0; 1#20; -1] !! "red" = Some mask
     /\ length mask = length [0; 1#20; -1])
  /\ set_stripe_regions [0; 1#20; -1] !! "green" = None.
Proof.
  split.
  - apply (proj1 (stripe_masks_shape [0; 1#20; -1] "red")). simpl. auto.
  - apply (proj2 (stripe_masks_shape [0; 1#20; -1] "green")).
    simpl. intros [H|[H|[H|[H|[]]]]]; discriminate H.
Defined.

(** X16: cell by cell, a blue cell is cornflowerblue and a red cell is
    salmon; every cell is cornflowerblue or salmon, both exactly where the
    tracer is zero; no cell is both blue and red. *)
Theorem stripe_masks_nest (tracer : list Q) (i : nat) (x : Q) :
  tracer !! i = Some x ->
  exists cb bl sa rd,
    set_stripe_regions tracer !! "cornflowerblue" ≫= (.!! i) = Some cb
    /\ set_stripe_regions tracer !! "blue" ≫= (.!! i) = Some bl
    /\ set_stripe_regions tracer !! "salmon" ≫= (.!! i) = Some sa
    /\ set_stripe_regions tracer !! "red" ≫= (.!! i) = Some rd
    /\ (bl = true -> cb = true)
    /\ (rd = true -> sa = true)
    /\ cb || sa = true
    /\ (cb && sa = true <-> x == 0)
    /\ bl && rd = false.
Proof.
  intros Hx. destruct (stripe_cells tracer) as (Hc & Hb & Hs & Hr).
  rewrite Hc, Hb, Hs, Hr. simpl. rewrite !list_lookup_fmap, Hx. simpl.
  eexists _, _, _, _. do 4 (split; [reflexivity|]).
  destruct (Qle_bool 0 x) eqn:E0, (Qle_bool x 0) eqn:E1;
    rewrite ?andb_true_r, ?andb_false_r; simpl;
    try (apply Qle_bool_iff in E0); try (apply Qle_bool_iff in E1).
  - assert (Hx0 : x == 0) by lra.
    assert (Hm : Qle_bool (5#100) (np_mod x (1#10)) = false).
    { destruct (Qle_bool (5#100) (np_mod x (1#10))) eqn:E; [|reflexivity].
      apply Qle_bool_iff in E. exfalso. unfold np_mod in E.
      assert (Hf : Qfloor (x / (1#10)) = 0%Z).
      { rewrite Hx0. reflexivity. }
      rewrite Hf, Hx0 in E. vm_compute in E. apply E. reflexivity. }
    rewrite Hm. repeat split; auto.
  - repeat split; auto; try discriminate.
    intros H. assert (x <= 0) by lra. apply Qle_bool_iff in H0. congruence.
  - repeat split; auto; try discriminate.
    intros H. assert (0 <= x) by lra. apply Qle_bool_iff in H0. congruence.
  - exfalso. destruct (Qlt_le_dec x 0) as [H|H].
    + assert (H' : x <= 0) by lra. apply Qle_bool_iff in H'. congruence.
    + apply Qle_bool_iff in H. congruence.
Qed.

Lemma stripe_masks_nest_witness :
  exists cb bl sa rd,
    set_stripe_regions [0; 7#100] !! "cornflowerblue" ≫= (.!! 1%nat) = Some cb
    /\ set_stripe_regions [0; 7#100] !! "blue" ≫= (.!! 1%nat) = Some bl
    /\ set_stripe_regions [0; 7#100] !! "salmon" ≫= (.!! 1%nat) = Some sa
    /\ set_stripe_regions [0; 7#100] !! "red" ≫= (.!! 1%nat) = Some rd
    /\ (bl = true -> cb = true)
    /\ (rd = true -> sa = true)
    /\ cb || sa = true
    /\ (cb && sa = true <-> (7#100) == 0)
    /\ bl && rd = false.
Proof.
  apply (stripe_masks_nest [0; 7#100] 1 (7#100)). reflexivity.
Defined.

(** * Properties of the binary64 evaluator *)

(** ** The order of the doubles *)

Lemma SFcompare_rank (x y : B64.float) :
  B64.is_nan x = false -> B64.is_nan y = false ->
  SFcompare x y = Some (B64.lex_compare (B64.rank x) (B64.rank y)).
Proof.
  intros Hx Hy.
  destruct x as [sx|sx| |sx mx ex], y as [sy|sy| |sy my ey];
    try discriminate; try destruct sx; try destruct sy; try reflexivity.
  simpl. rewrite Z.compare_opp.
  destruct (Z.compare_spec ex ey) as [E|E|E].
  - subst. rewrite Z.compare_refl.
    change (Zneg mx ?= Zneg my)%Z with (CompOpp (mx ?= my)%positive).
    reflexivity.
  - apply Z.compare_gt_iff in E. rewrite E. reflexivity.
  - apply Z.compare_lt_iff in E. rewrite E. reflexivity.
Qed.

Lemma lex_compare_le (a b : Z * Z * Z) :
  (B64.lex_compare a b = Lt \/ B64.lex_compare a b = Eq) <-> B64.lex_le a b.
Proof.
  destruct a as [[a1 a2] a3], b as [[b1 b2] b3]. simpl.
  destruct (Z.compare_spec a1 b1), (Z.compare_spec a2 b2),
    (Z.compare_spec a3 b3); split; intros HH; try lia; auto;
    destruct HH as [HH|HH]; discriminate HH.
Qed.

Lemma lex_compare_lt (a b : Z * Z * Z) :
  B64.lex_compare a b = Lt <-> B64.lex_lt a b.
Proof.
  destruct a as [[a1 a2] a3], b as [[b1 b2] b3]. simpl.
  destruct (Z.compare_spec a1 b1), (Z.compare_spec a2 b2),
    (Z.compare_spec a3 b3); split; intros HH; try lia; auto; discriminate HH.
Qed.

Lemma lex_compare_eq (a b : Z * Z * Z) : B64.lex_compare a b = Eq <-> a = b.
Proof.
  destruct a as [[a1 a2] a3], b as [[b1 b2] b3]. simpl.
  destruct (Z.compare_spec a1 b1), (Z.compare_spec a2 b2),
    (Z.compare_spec a3 b3); split; intros HH; try discriminate HH;
    try (injection HH; lia); subst; reflexivity.
Qed.

Lemma leb_rank (x y : B64.float) :
  B64.is_nan x = false -> B64.is_nan y = false ->
  B64.leb x y = true <-> B64.lex_le (B64.rank x) (B64.rank y).
Proof.
  intros Hx Hy. rewrite <- lex_compare_le.
  unfold B64.leb, SFleb. rewrite (SFcompare_rank x y Hx Hy).
  destruct (B64.lex_compare (B64.rank x) (B64.rank y)); split; intros H;
    auto; try discriminate H; destruct H as [H|H]; discriminate H.
Qed.

Lemma ltb_rank (x y : B64.float) :
  B64.is_nan x = false -> B64.is_nan y = false ->
  B64.ltb x y = true <-> B64.lex_lt (B64.rank x) (B64.rank y).
Proof.
  intros Hx Hy. rewrite <- lex_compare_lt.
  unfold B64.ltb, SFltb. rewrite (SFcompare_rank x y Hx Hy).
  destruct (B64.lex_compare (B64.rank x) (B64.rank y)); split; intros H;
    auto; discriminate H.
Qed.

Lemma eqb_rank (x y : B64.float) :
  B64.is_nan x = false -> B64.is_nan y = false ->
  B64.eqb x y = true <-> B64.rank x = B64.rank y.
Proof.
  intros Hx Hy. rewrite <- lex_compare_eq.
  unfold B64.eqb, SFeqb. rewrite (SFcompare_rank x y Hx Hy).
  destruct (B64.lex_compare (B64.rank x) (B64.rank y)); split; intros H;
    auto; discriminate H.
Qed.

Lemma leb_nan_r (x : B64.float) : B64.leb x B64.nan = false.
Proof. destruct x as [[]|[]| |[] m e]; reflexivity. Qed.

Lemma leb_not_nan (x y : B64.float) :
  B64.leb x y = true -> B64.is_nan x = false /\ B64.is_nan y = false.
Proof.
  destruct x as [[]|[]| |[] mx ex], y as [[]|[]| |[] my ey];
    try discriminate; auto.
Qed.

Lemma ltb_not_nan (x y : B64.float) :
  B64.ltb x y = true -> B64.is_nan x = false /\ B64.is_nan y = false.
Proof.
  destruct x as [[]|[]| |[] mx ex], y as [[]|[]| |[] my ey];
    try discriminate; auto.
Qed.

Lemma eqb_not_nan (x y : B64.float) :
  B64.eqb x y = true -> B64.is_nan x = false /\ B64.is_nan y = false.
Proof.
  destruct x as [[]|[]| |[] mx ex], y as [[]|[]| |[] my ey];
    try discriminate; auto.
Qed.

Lemma is_nan_true (x : B64.float) : B64.is_nan x = true -> x = B64.nan.
Proof. destruct x; try discriminate. reflexivity. Qed.

(** Comparisons between doubles that are not [nan] are decided on the
    ranks, by linear arithmetic. *)
Ltac rank_order :=
  repeat match goal with
  | H : B64.leb _ _ = true |- _ => apply leb_rank in H; [|assumption..]
  | H : B64.ltb _ _ = true |- _ => apply ltb_rank in H; [|assumption..]
  | H : B64.eqb _ _ = true |- _ => apply eqb_rank in H; [|assumption..]
  | H : B64.leb _ _ = false |- _ =>
      apply not_true_iff_false in H; rewrite leb_rank in H by assumption
  | H : B64.ltb _ _ = false |- _ =>
      apply not_true_iff_false in H; rewrite ltb_rank in H by assumption
  | |- B64.leb _ _ = true => apply leb_rank; [assumption..|]
  | |- B64.ltb _ _ = true => apply ltb_rank; [assumption..|]
  end;
  repeat match goal with
  | x : B64.float |- _ =>
      lazymatch goal with
      | _ : context [B64.rank x] |- _ =>
          let a := fresh "a" in let b := fresh "b" in let c := fresh "c" in
          destruct (B64.rank x) as [[a b] c]
      | |- context [B64.rank x] =>
          let a := fresh "a" in let b := fresh "b" in let c := fresh "c" in
          destruct (B64.rank x) as [[a b] c]
      end
  end;
  unfold B64.lex_le, B64.lex_lt in *;
  repeat match goal with
  | H : (_, _, _) = (_, _, _) |- _ => injection H as ? ? ?
  end;
  lia.

Lemma leb_refl (x : B64.float) : B64.is_nan x = false -> B64.leb x x = true.
Proof. intros Hx. rank_order. Qed.

Lemma leb_trans (x y z : B64.float) :
  B64.leb x y = true -> B64.leb y z = true -> B64.leb x z = true.
Proof.
  intros H1 H2. destruct (leb_not_nan _ _ H1), (leb_not_nan _ _ H2).
  rank_order.
Qed.

Lemma ltb_leb_trans (x y z : B64.float) :
  B64.ltb x y = true -> B64.leb y z = true -> B64.ltb x z = true.
Proof.
  intros H1 H2. destruct (ltb_not_nan _ _ H1), (leb_not_nan _ _ H2).
  rank_order.
Qed.

Lemma ltb_leb (x y : B64.float) : B64.ltb x y = true -> B64.leb x y = true.
Proof. intros H1. destruct (ltb_not_nan _ _ H1). rank_order. Qed.

Lemma not_leb_ltb (x y : B64.float) :
  B64.is_nan x = false -> B64.is_nan y = false ->
  B64.leb x y = false -> B64.ltb y x = true.
Proof. intros Hx Hy H1. rank_order. Qed.

Lemma ltb_not_leb (x y : B64.float) :
  B64.ltb x y = true -> B64.leb y x = false.
Proof.
  intros H1. destruct (ltb_not_nan _ _ H1).
  apply not_true_iff_false. intros H2. rank_order.
Qed.

Lemma ltb_not_eqb (x y : B64.float) :
  B64.ltb x y = true -> B64.eqb y x = false.
Proof.
  intros H1. destruct (ltb_not_nan _ _ H1).
  apply not_true_iff_false. intros H2. rank_order.
Qed.

(** Negation reverses every comparison, [nan] included. *)
Lemma SFcompare_opp (x y : B64.float) :
  SFcompare (SFopp x) (SFopp y) = SFcompare y x.
Proof.
  assert (Hm : forall p q : positive,
             Pos.compare_cont Eq q p = CompOpp (Pos.compare_cont Eq p q)).
  { intros p q. rewrite Pos.compare_cont_antisym. reflexivity. }
  destruct x as [[]|[]| |[] mx ex], y as [[]|[]| |[] my ey];
    try reflexivity; simpl;
    rewrite (Z.compare_antisym ex ey), (Hm mx my);
    destruct (ex ?= ey)%Z, (Pos.compare_cont Eq mx my); reflexivity.
Qed.

Lemma leb_opp (x y : B64.float) : B64.leb (SFopp x) (SFopp y) = B64.leb y x.
Proof. unfold B64.leb, SFleb. rewrite SFcompare_opp. reflexivity. Qed.

Lemma ltb_opp (x y : B64.float) : B64.ltb (SFopp x) (SFopp y) = B64.ltb y x.
Proof. unfold B64.ltb, SFltb. rewrite SFcompare_opp. reflexivity. Qed.

Lemma is_nan_opp (x : B64.float) : B64.is_nan (SFopp x) = B64.is_nan x.
Proof. destruct x; reflexivity. Qed.

(** ** The scans on doubles *)

Lemma b64_argmin_from_spec (t : list B64.float) :
  forall (pre : list B64.float) (mp : B64.float) (mi : nat),
    pre !! mi = Some mp ->
    (forall k y, pre !! k = Some y -> B64.leb mp y = true) ->
    (forall k y, pre !! k = Some y -> (k < mi)%nat -> B64.ltb mp y = true) ->
    B64.first_min (pre ++ t) (B64.argmin_from mp mi (length pre) t)
    \/ B64.first_nan (pre ++ t) (B64.argmin_from mp mi (length pre) t).
Proof.
  induction t as [|x t IH]; intros pre mp mi Hmp Hle Hlt; simpl.
  - left. rewrite app_nil_r. exists mp. auto.
  - assert (Hlen : length (pre ++ [x]) = S (length pre))
      by (rewrite length_app; simpl; lia).
    assert (Hmpn : B64.is_nan mp = false)
      by (apply (leb_not_nan mp mp), (Hle mi), Hmp).
    destruct (B64.leb mp x) eqn:Eleb; simpl.
    + specialize (IH (pre ++ [x]) mp mi).
      rewrite Hlen, <- app_assoc in IH. apply IH.
      * apply lookup_app_l_Some. exact Hmp.
      * intros k y Hk. apply lookup_snoc_Some in Hk as [[_ Hk]|[_ <-]]; eauto.
      * intros k y Hk Hkm. apply lookup_snoc_Some in Hk as [[_ Hk]|[-> _]].
        -- eauto.
        -- apply lookup_lt_Some in Hmp. lia.
    + destruct (B64.is_nan x) eqn:Enan.
      * right. split.
        -- apply is_nan_true in Enan. subst x.
           apply list_lookup_middle. reflexivity.
        -- intros k y Hk Hkl. rewrite lookup_app_l in Hk by exact Hkl.
           apply (leb_not_nan mp y). eauto.
      * pose proof (not_leb_ltb mp x Hmpn Enan Eleb) as Hxmp.
        specialize (IH (pre ++ [x]) x (length pre)).
        rewrite Hlen, <- app_assoc in IH. apply IH.
        -- apply list_lookup_middle. reflexivity.
        -- intros k y Hk. apply lookup_snoc_Some in Hk as [[_ Hk]|[_ <-]].
           ++ apply ltb_leb, (ltb_leb_trans x mp y Hxmp). eauto.
           ++ apply leb_refl, Enan.
        -- intros k y Hk Hkl. apply lookup_snoc_Some in Hk as [[_ Hk]|[-> _]].
           ++ apply (ltb_leb_trans x mp y Hxmp). eauto.
           ++ lia.
Qed.

Lemma b64_argmin_spec (v : list B64.float) :
  v <> [] ->
  B64.first_min v (B64.argmin v) \/ B64.first_nan v (B64.argmin v).
Proof.
  destruct v as [|mp t]; [congruence|intros _].
  unfold B64.argmin. destruct (B64.is_nan mp) eqn:Enan.
  - right. apply is_nan_true in Enan. subst mp. split; [reflexivity|].
    intros k y _ Hk. lia.
  - change (mp :: t) with ([mp] ++ t). change 1%nat with (length [mp]).
    apply b64_argmin_from_spec.
    + reflexivity.
    + intros [|k] y Hk; simpl in Hk;
        [injection Hk as <-; apply leb_refl, Enan|].
      rewrite lookup_nil in Hk. discriminate Hk.
    + intros k y _ Hk. lia.
Qed.

(** [argmax] scans like [argmin] on the negated array. *)
Lemma b64_argmax_from_argmin_from (v : list B64.float) :
  forall mp mi i,
    B64.argmax_from mp mi i v
    = B64.argmin_from (SFopp mp) mi i (map SFopp v).
Proof.
  induction v as [|x t IH]; intros mp mi i; simpl; [reflexivity|].
  rewrite leb_opp, is_nan_opp.
  destruct (B64.leb x mp), (B64.is_nan x); simpl; auto.
Qed.

Lemma b64_argmax_argmin (v : list B64.float) :
  B64.argmax v = B64.argmin (map SFopp v).
Proof.
  destruct v as [|x t]; [reflexivity|]. simpl. rewrite is_nan_opp.
  destruct (B64.is_nan x); [reflexivity|apply b64_argmax_from_argmin_from].
Qed.

Lemma first_min_opp (v : list B64.float) (r : nat) :
  B64.first_min (map SFopp v) r -> B64.first_max v r.
Proof.
  intros (x & Hx & Hle & Hlt). rewrite list_lookup_fmap in Hx.
  destruct (v !! r) as [m|] eqn:Hm; [|discriminate Hx].
  simpl in Hx. injection Hx as <-. exists m. split; [exact Hm|]. split.
  - intros k y Hk. rewrite <- leb_opp. apply (Hle k).
    rewrite list_lookup_fmap, Hk. reflexivity.
  - intros k y Hk Hkr. rewrite <- ltb_opp. apply (Hlt k); [|exact Hkr].
    rewrite list_lookup_fmap, Hk. reflexivity.
Qed.

Lemma first_nan_opp (v : list B64.float) (r : nat) :
  B64.first_nan (map SFopp v) r -> B64.first_nan v r.
Proof.
  intros [Hr Hbefore]. rewrite list_lookup_fmap in Hr.
  destruct (v !! r) as [m|] eqn:Hm; [|discriminate Hr].
  simpl in Hr. injection Hr as Hr. split.
  - rewrite Hm. destruct m; try discriminate Hr. reflexivity.
  - intros k y Hk Hkr. rewrite <- is_nan_opp. apply (Hbefore k); [|exact Hkr].
    rewrite list_lookup_fmap, Hk. reflexivity.
Qed.

Lemma b64_argmax_spec (v : list B64.float) :
  v <> [] ->
  B64.first_max v (B64.argmax v) \/ B64.first_nan v (B64.argmax v).
Proof.
  intros Hv. rewrite b64_argmax_argmin.
  destruct (b64_argmin_spec (map SFopp v)) as [H|H].
  - destruct v; [congruence|discriminate].
  - left. apply first_min_opp, H.
  - right. apply first_nan_opp, H.
Qed.

Lemma no_nan_lookup (v : list B64.float) (k : nat) (y : B64.float) :
  B64.no_nan v = true -> v !! k = Some y -> B64.is_nan y = false.
Proof.
  unfold B64.no_nan. rewrite forallb_forall. intros H Hk.
  apply negb_true_iff, H, list_elem_of_In, (list_elem_of_lookup_2 _ k), Hk.
Qed.

Lemma first_nan_not_no_nan (v : list B64.float) (r : nat) :
  B64.first_nan v r -> B64.no_nan v = true -> False.
Proof.
  intros [Hr _] Hv. pose proof (no_nan_lookup v r _ Hv Hr). discriminate.
Qed.

(** ** The evaluator on doubles *)

Lemma b64_values_map (f : B64.float -> B64.float) (qv : list B64.float)
    (xij : B64.float) :
  B64.values f qv xij = map (B64.objective f xij) qv.
Proof.
  unfold B64.values. induction qv as [|q t IH]; [reflexivity|].
  simpl. rewrite IH. reflexivity.
Qed.

Lemma b64_length_values (f : B64.float -> B64.float) (qv : list B64.float)
    (xij : B64.float) :
  length (B64.values f qv xij) = length qv.
Proof. rewrite b64_values_map. apply length_map. Qed.

Lemma b64_lookup_values (f : B64.float -> B64.float) (qv : list B64.float)
    (xij : B64.float) (k : nat) (q : B64.float) :
  qv !! k = Some q ->
  B64.values f qv xij !! k = Some (B64.objective f xij q).
Proof. intros H. rewrite b64_values_map, list_lookup_fmap, H. reflexivity. Qed.

Lemma b64_qtilde_loop_spec (sel : list B64.float -> nat)
    (f : B64.float -> B64.float) (qv xi : list B64.float) :
  forall (j : nat) (Qbuf : list B64.float),
    length Qbuf = (j + length xi)%nat ->
    B64.qtilde_loop sel f qv j xi Qbuf
    = take j Qbuf ++ map (B64.pick sel f qv) xi.
Proof.
  induction xi as [|xij rest IH]; intros j Qbuf Hlen; simpl in *.
  - rewrite app_nil_r, take_ge; [reflexivity|lia].
  - rewrite IH by (rewrite length_insert; lia).
    rewrite (take_S_r _ j (nth (sel (B64.values f qv xij)) qv B64.nan))
      by (apply list_lookup_insert_eq; lia).
    rewrite take_insert_ge by lia.
    rewrite <- app_assoc. reflexivity.
Qed.

Lemma b64_evaluator_map (heap : nat -> B64.float) (f : B64.float -> B64.float)
    (q_left q_right : B64.float) (xi : list B64.float) :
  B64.evaluator heap f q_left q_right xi
  = map (B64.pick (B64.scan q_left q_right) f (B64.grid q_left q_right)) xi.
Proof.
  unfold B64.evaluator, B64.osher_solution, B64.scan, B64.grid.
  destruct (B64.leb q_left q_right); unfold B64.qtilde;
    (rewrite b64_qtilde_loop_spec;
     [reflexivity
     |unfold B64.np_empty; rewrite length_map, length_seq; reflexivity]).
Qed.

Lemma b64_osher_solution_returns (heap : nat -> B64.float)
    (f : B64.float -> B64.float) (q_left q_right : B64.float) :
  B64.osher_solution heap f q_left q_right
  = Returns (B64.evaluator heap f q_left q_right).
Proof.
  unfold B64.evaluator, B64.osher_solution.
  destruct (B64.leb q_left q_right); reflexivity.
Qed.

Lemma b64_lookup_evaluator (heap : nat -> B64.float)
    (f : B64.float -> B64.float) (q_left q_right : B64.float)
    (xi : list B64.float) (j : nat) (xij : B64.float) :
  xi !! j = Some xij ->
  B64.evaluator heap f q_left q_right xi !! j
  = Some (B64.pick (B64.scan q_left q_right) f (B64.grid q_left q_right) xij).
Proof. intros H. rewrite b64_evaluator_map, list_lookup_fmap, H. reflexivity. Qed.

Lemma b64_length_linspace (a b : B64.float) (n : nat) :
  length (B64.linspace a b n) = n.
Proof.
  destruct n as [|[|d]]; [reflexivity..|].
  unfold B64.linspace. rewrite length_insert, length_map.
  destruct (B64.eqb _ _); rewrite length_map, length_seq; reflexivity.
Qed.

Lemma b64_length_grid (q_left q_right : B64.float) :
  length (B64.grid q_left q_right) = 1000%nat.
Proof. apply b64_length_linspace. Qed.

Lemma b64_grid_nonempty (q_left q_right : B64.float) :
  B64.grid q_left q_right <> [].
Proof.
  intros H. pose proof (b64_length_grid q_left q_right) as Hl.
  rewrite H in Hl. discriminate Hl.
Qed.

Lemma b64_values_nonempty (f : B64.float -> B64.float)
    (q_left q_right xij : B64.float) :
  B64.values f (B64.grid q_left q_right) xij <> [].
Proof.
  intros H. apply (f_equal length) in H.
  rewrite b64_length_values, b64_length_grid in H. discriminate H.
Qed.

(** The selected point is a grid entry, at the index the scan returns. *)
Lemma b64_pick_lookup (sel : list B64.float -> nat)
    (f : B64.float -> B64.float) (qv : list B64.float) (xij x : B64.float) :
  B64.values f qv xij !! sel (B64.values f qv xij) = Some x ->
  qv !! sel (B64.values f qv xij) = Some (B64.pick sel f qv xij).
Proof.
  intros Hx. apply lookup_lt_Some in Hx. rewrite b64_length_values in Hx.
  unfold B64.pick.
  destruct (nth_lookup_or_length qv (sel (B64.values f qv xij)) B64.nan);
    [assumption|lia].
Qed.

Lemma b64_scan_spec (q_left q_right : B64.float) (v : list B64.float) :
  v <> [] ->
  (B64.leb q_left q_right = true /\ B64.first_min v (B64.scan q_left q_right v))
  \/ (B64.leb q_left q_right = false
      /\ B64.first_max v (B64.scan q_left q_right v))
  \/ B64.first_nan v (B64.scan q_left q_right v).
Proof.
  intros Hv. unfold B64.scan. destruct (B64.leb q_left q_right).
  - destruct (b64_argmin_spec v Hv); auto.
  - destruct (b64_argmax_spec v Hv); auto.
Qed.

Lemma b64_pick_on_grid (f : B64.float -> B64.float)
    (q_left q_right xij : B64.float) :
  B64.grid q_left q_right
    !! B64.scan q_left q_right (B64.values f (B64.grid q_left q_right) xij)
  = Some (B64.pick (B64.scan q_left q_right) f (B64.grid q_left q_right) xij).
Proof.
  destruct (b64_scan_spec q_left q_right _
              (b64_values_nonempty f q_left q_right xij))
    as [[_ (x & Hx & _)]|[[_ (x & Hx & _)]|[Hx _]]];
    exact (b64_pick_lookup _ f _ xij _ Hx).
Qed.

Lemma ltb_not_eqb_l (x y : B64.float) :
  B64.ltb x y = true -> B64.eqb x y = false.
Proof.
  intros H1. destruct (ltb_not_nan _ _ H1).
  apply not_true_iff_false. intros H2. rank_order.
Qed.

(** What a scan that met no [nan] selected, read on the grid. *)
Lemma b64_pick_first_min (f : B64.float -> B64.float) (qv : list B64.float)
    (xij : B64.float) (sel : list B64.float -> nat) :
  B64.first_min (B64.values f qv xij) (sel (B64.values f qv xij)) ->
  qv !! sel (B64.values f qv xij) = Some (B64.pick sel f qv xij)
  /\ (forall k q', qv !! k = Some q' ->
        B64.leb (B64.objective f xij (B64.pick sel f qv xij))
                (B64.objective f xij q') = true)
  /\ (forall k q', qv !! k = Some q' ->
        (k < sel (B64.values f qv xij))%nat ->
        B64.ltb (B64.objective f xij (B64.pick sel f qv xij))
                (B64.objective f xij q') = true).
Proof.
  intros (x & Hx & Hle & Hlt).
  pose proof (b64_pick_lookup sel f qv xij x Hx) as Hq.
  rewrite (b64_lookup_values f qv xij _ _ Hq) in Hx. injection Hx as <-.
  split; [exact Hq|]. split.
  - intros k q' Hk. apply (Hle k), b64_lookup_values, Hk.
  - intros k q' Hk Hki. apply (Hlt k); [apply b64_lookup_values, Hk|exact Hki].
Qed.

Lemma b64_pick_first_max (f : B64.float -> B64.float) (qv : list B64.float)
    (xij : B64.float) (sel : list B64.float -> nat) :
  B64.first_max (B64.values f qv xij) (sel (B64.values f qv xij)) ->
  qv !! sel (B64.values f qv xij) = Some (B64.pick sel f qv xij)
  /\ (forall k q', qv !! k = Some q' ->
        B64.leb (B64.objective f xij q')
                (B64.objective f xij (B64.pick sel f qv xij)) = true)
  /\ (forall k q', qv !! k = Some q' ->
        (k < sel (B64.values f qv xij))%nat ->
        B64.ltb (B64.objective f xij q')
                (B64.objective f xij (B64.pick sel f qv xij)) = true).
Proof.
  intros (x & Hx & Hle & Hlt).
  pose proof (b64_pick_lookup sel f qv xij x Hx) as Hq.
  rewrite (b64_lookup_values f qv xij _ _ Hq) in Hx. injection Hx as <-.
  split; [exact Hq|]. split.
  - intros k q' Hk. apply (Hle k), b64_lookup_values, Hk.
  - intros k q' Hk Hki. apply (Hlt k); [apply b64_lookup_values, Hk|exact Hki].
Qed.

(** The scan of the source on an array without [nan]. *)
Lemma b64_scan_no_nan (q_left q_right : B64.float) (v : list B64.float) :
  v <> [] -> B64.no_nan v = true ->
  (B64.leb q_left q_right = true /\ B64.first_min v (B64.scan q_left q_right v))
  \/ (B64.leb q_left q_right = false
      /\ B64.first_max v (B64.scan q_left q_right v)).
Proof.
  intros Hv Hn. destruct (b64_scan_spec q_left q_right v Hv) as [H|[H|H]]; auto.
  destruct (first_nan_not_no_nan v _ H Hn).
Qed.

(** ** Doubles as rational numbers *)












(** ** What the evaluator answers on doubles *)

Lemma b64_In_lookup (qv : list B64.float) (q : B64.float) :
  In q qv <-> exists k, qv !! k = Some q.
Proof. rewrite <- list_elem_of_In. apply list_elem_of_lookup. Qed.

Lemma no_nan_values (f : B64.float -> B64.float) (qv : list B64.float)
    (xij : B64.float) (k : nat) (q : B64.float) :
  B64.no_nan (B64.values f qv xij) = true -> qv !! k = Some q ->
  B64.is_nan (B64.objective f xij q) = false.
Proof.
  intros Hn Hk. apply (no_nan_lookup _ k _ Hn), b64_lookup_values, Hk.
Qed.

(** C1, as stated, fails on the doubles the code computes with.
    For the flux [q*q], the data [0] and [1] and the query
    [xi = 0x1.fffffffffffd8p-1] the evaluator answers grid point 500, although
    the exact value of [q*q - xi*q] is strictly smaller at grid point 499:
    the scan minimises the rounded values.  And for the flux
    [(q-1)/(q-1)], which is [nan] at [q = 1], and [xi = -1] it answers the
    last grid point, whose computed value is [nan] and is not below any
    other. *)
Lemma b64_argmin_not_minimiser :
  B64.ltb (B64.of_Z 0) (B64.of_Z 1) = true
  /\ B64.evaluator (fun _ => B64.nan) (fun q => B64.mul q q)
       (B64.of_Z 0) (B64.of_Z 1) [S754_finite false 0x1fffffffffffd8 (-53)]
     = [nth 500 (B64.grid (B64.of_Z 0) (B64.of_Z 1)) B64.nan]
  /\ (B64.B2Q (nth 499 (B64.grid (B64.of_Z 0) (B64.of_Z 1)) B64.nan)
        * B64.B2Q (nth 499 (B64.grid (B64.of_Z 0) (B64.of_Z 1)) B64.nan)
      - B64.B2Q (S754_finite false 0x1fffffffffffd8 (-53))
        * B64.B2Q (nth 499 (B64.grid (B64.of_Z 0) (B64.of_Z 1)) B64.nan)
      < B64.B2Q (nth 500 (B64.grid (B64.of_Z 0) (B64.of_Z 1)) B64.nan)
        * B64.B2Q (nth 500 (B64.grid (B64.of_Z 0) (B64.of_Z 1)) B64.nan)
      - B64.B2Q (S754_finite false 0x1fffffffffffd8 (-53))
        * B64.B2Q (nth 500 (B64.grid (B64.of_Z 0) (B64.of_Z 1)) B64.nan))%Q
  /\ B64.evaluator (fun _ => B64.nan)
       (fun q => B64.div (B64.sub q (B64.of_Z 1)) (B64.sub q (B64.of_Z 1)))
       (B64.of_Z 0) (B64.of_Z 1) [B64.of_Z (-1)]
     = [nth 999 (B64.grid (B64.of_Z 0) (B64.of_Z 1)) B64.nan]
  /\ B64.leb
       (B64.objective
          (fun q => B64.div (B64.sub q (B64.of_Z 1)) (B64.sub q (B64.of_Z 1)))
          (B64.of_Z (-1)) (nth 999 (B64.grid (B64.of_Z 0) (B64.of_Z 1)) B64.nan))
       (B64.objective
          (fun q => B64.div (B64.sub q (B64.of_Z 1)) (B64.sub q (B64.of_Z 1)))
          (B64.of_Z (-1)) (nth 0 (B64.grid (B64.of_Z 0) (B64.of_Z 1)) B64.nan))
     = false.
Proof. vm_compute. repeat split. Qed.

(** C1, amended: when no computed value of [f(q) - xi*q] on the grid is
    [nan], the evaluator returns a grid point whose computed value is the
    least of the computed values over the grid when [q_left < q_right], and
    the greatest when [q_right < q_left]. *)
Theorem b64_argmin_argmax (heap : nat -> B64.float)
    (f : B64.float -> B64.float) (q_left q_right : B64.float)
    (xi : list B64.float) (j : nat) (xij : B64.float) :
  xi !! j = Some xij ->
  B64.no_nan (B64.values f (B64.grid q_left q_right) xij) = true ->
  exists q,
    B64.evaluator heap f q_left q_right xi !! j = Some q
    /\ In q (B64.grid q_left q_right)
    /\ (B64.ltb q_left q_right = true ->
          forall q', In q' (B64.grid q_left q_right) ->
            B64.leb (B64.objective f xij q) (B64.objective f xij q') = true)
    /\ (B64.ltb q_right q_left = true ->
          forall q', In q' (B64.grid q_left q_right) ->
            B64.leb (B64.objective f xij q') (B64.objective f xij q) = true).
Proof.
  intros Hj Hn. eexists. split; [apply (b64_lookup_evaluator _ _ _ _ _ _ _ Hj)|].
  split; [apply b64_In_lookup; eexists; apply b64_pick_on_grid|].
  destruct (b64_scan_no_nan q_left q_right _
              (b64_values_nonempty f q_left q_right xij) Hn)
    as [[Hb Hfm]|[Hb Hfm]].
  - apply b64_pick_first_min in Hfm as (_ & Hmin & _). split.
    + intros _ q' [k Hk]%b64_In_lookup. eauto.
    + intros Hlt. apply ltb_not_leb in Hlt. congruence.
  - apply b64_pick_first_max in Hfm as (_ & Hmax & _). split.
    + intros Hlt. apply ltb_leb in Hlt. congruence.
    + intros _ q' [k Hk]%b64_In_lookup. eauto.
Qed.

Lemma b64_argmin_argmax_witness :
  exists q,
    B64.evaluator (fun _ => B64.nan)
      (fun q => B64.mul q (B64.sub (B64.of_Z 1) q))
      (B64.dec 1 10) (B64.dec 6 10) [B64.dec 3 10] !! 0%nat = Some q
    /\ In q (B64.grid (B64.dec 1 10) (B64.dec 6 10))
    /\ (B64.ltb (B64.dec 1 10) (B64.dec 6 10) = true ->
          forall q', In q' (B64.grid (B64.dec 1 10) (B64.dec 6 10)) ->
            B64.leb
              (B64.objective (fun q => B64.mul q (B64.sub (B64.of_Z 1) q))
                 (B64.dec 3 10) q)
              (B64.objective (fun q => B64.mul q (B64.sub (B64.of_Z 1) q))
                 (B64.dec 3 10) q') = true)
    /\ (B64.ltb (B64.dec 6 10) (B64.dec 1 10) = true ->
          forall q', In q' (B64.grid (B64.dec 1 10) (B64.dec 6 10)) ->
            B64.leb
              (B64.objective (fun q => B64.mul q (B64.sub (B64.of_Z 1) q))
                 (B64.dec 3 10) q')
              (B64.objective (fun q => B64.mul q (B64.sub (B64.of_Z 1) q))
                 (B64.dec 3 10) q) = true).
Proof.
  apply (b64_argmin_argmax (fun _ => B64.nan)
           (fun q => B64.mul q (B64.sub (B64.of_Z 1) q))
           (B64.dec 1 10) (B64.dec 6 10) [B64.dec 3 10] 0 (B64.dec 3 10)).
  - reflexivity.
  - vm_compute. reflexivity.
Defined.

(** C3, as stated, fails on the doubles the code computes with.  With
    [q_left = 0], [q_right = 600 * 2^-1074], the flux [0*q] and [xi = 1] the
    grid step rounds to one subnormal unit, the grid runs up to
    [998 * 2^-1074] before its last entry, and the evaluator answers that
    entry, above [q_max].  With [q_left = -1e308] and [q_right = 1e308] the
    difference overflows, the grid starts with [nan], and the evaluator
    answers [nan]. *)
Lemma b64_range_left :
  B64.evaluator (fun _ => B64.nan) (fun q => B64.mul (B64.of_Z 0) q)
    (B64.of_Z 0) (S754_finite false 600 (-1074)) [B64.of_Z 1]
  = [S754_finite false 998 (-1074)]
  /\ B64.py_max (B64.of_Z 0) (S754_finite false 600 (-1074))
     = S754_finite false 600 (-1074)
  /\ B64.ltb (S754_finite false 600 (-1074)) (S754_finite false 998 (-1074))
     = true
  /\ B64.evaluator (fun _ => B64.nan) (fun q => B64.mul q q)
       (B64.of_Z (- 10 ^ 308)) (B64.of_Z (10 ^ 308)) [B64.of_Z 0]
     = [B64.nan].
Proof. vm_compute. repeat split. Qed.

(** C3, amended: every value the evaluator returns is one of the 1000
    entries of the state grid [linspace(q_min, q_max, 1000)], one value for
    each query; so the values lie in the closed interval from [q_min] to
    [q_max] whenever the grid entries do. *)
Theorem b64_evaluator_on_grid (heap : nat -> B64.float)
    (f : B64.float -> B64.float) (q_left q_right : B64.float)
    (xi : list B64.float) :
  length (B64.evaluator heap f q_left q_right xi) = length xi
  /\ length (B64.grid q_left q_right) = 1000%nat
  /\ Forall (fun q => In q (B64.grid q_left q_right))
       (B64.evaluator heap f q_left q_right xi)
  /\ (forallb (B64.within (B64.py_min q_left q_right)
                          (B64.py_max q_left q_right))
        (B64.grid q_left q_right) = true ->
      forallb (B64.within (B64.py_min q_left q_right)
                          (B64.py_max q_left q_right))
        (B64.evaluator heap f q_left q_right xi) = true).
Proof.
  assert (Hon : Forall (fun q => In q (B64.grid q_left q_right))
                  (B64.evaluator heap f q_left q_right xi)).
  { rewrite b64_evaluator_map. apply Forall_fmap, Forall_true. intros xij.
    simpl. apply b64_In_lookup. eexists. apply b64_pick_on_grid. }
  split; [rewrite b64_evaluator_map; apply length_map|].
  split; [apply b64_length_grid|]. split; [exact Hon|].
  intros Hgrid. rewrite forallb_forall in Hgrid. apply forallb_forall.
  intros q Hq. rewrite Forall_forall in Hon.
  apply Hgrid, Hon, list_elem_of_In, Hq.
Qed.

(** On the data of the notebook's first call, [0.1] and [0.6], the grid
    stays between its ends, and so do the answers. *)
Lemma b64_evaluator_on_grid_witness :
  forallb (B64.within (B64.py_min (B64.dec 1 10) (B64.dec 6 10))
                      (B64.py_max (B64.dec 1 10) (B64.dec 6 10)))
    (B64.evaluator (fun _ => B64.nan)
       (fun q => B64.mul q (B64.sub (B64.of_Z 1) q))
       (B64.dec 1 10) (B64.dec 6 10)
       [B64.dec 2 10; B64.dec 3 10; B64.dec 4 10]) = true.
Proof.
  apply (b64_evaluator_on_grid (fun _ => B64.nan)
           (fun q => B64.mul q (B64.sub (B64.of_Z 1) q))
           (B64.dec 1 10) (B64.dec 6 10)
           [B64.dec 2 10; B64.dec 3 10; B64.dec 4 10]).
  vm_compute. reflexivity.
Defined.

(** C6, as stated, fails on the doubles the code computes with.  For the
    flux [2*q + 1], the data [0] and [1] and [xi = 2] the exact value of
    [f(q) - xi*q] is [1] at every grid point, so all 1000 points tie and the
    first is grid point 0; the evaluator answers grid point 501, a higher
    [q], because the rounded values differ.  And for the flux
    [(q-1)/(q-1)], which is [1] below [q = 1] and [nan] there, at [xi = 0]
    the computed values tie at [1] on the grid points 0 to 998, and the
    evaluator answers grid point 999, whose computed value is [nan]. *)
Lemma b64_tie_not_first :
  B64.evaluator (fun _ => B64.nan)
    (fun q => B64.add (B64.mul (B64.of_Z 2) q) (B64.of_Z 1))
    (B64.of_Z 0) (B64.of_Z 1) [B64.of_Z 2]
  = [nth 501 (B64.grid (B64.of_Z 0) (B64.of_Z 1)) B64.nan]
  /\ (forall q : Q, 2 * q + 1 - B64.B2Q (B64.of_Z 2) * q == 1)%Q
  /\ B64.ltb (nth 0 (B64.grid (B64.of_Z 0) (B64.of_Z 1)) B64.nan)
             (nth 501 (B64.grid (B64.of_Z 0) (B64.of_Z 1)) B64.nan) = true
  /\ B64.evaluator (fun _ => B64.nan)
       (fun q => B64.div (B64.sub q (B64.of_Z 1)) (B64.sub q (B64.of_Z 1)))
       (B64.of_Z 0) (B64.of_Z 1) [B64.of_Z 0]
     = [nth 999 (B64.grid (B64.of_Z 0) (B64.of_Z 1)) B64.nan]
  /\ firstn 999
       (B64.values
          (fun q => B64.div (B64.sub q (B64.of_Z 1)) (B64.sub q (B64.of_Z 1)))
          (B64.grid (B64.of_Z 0) (B64.of_Z 1)) (B64.of_Z 0))
     = repeat (B64.of_Z 1) 999
  /\ B64.is_nan
       (B64.objective
          (fun q => B64.div (B64.sub q (B64.of_Z 1)) (B64.sub q (B64.of_Z 1)))
          (B64.of_Z 0) (nth 999 (B64.grid (B64.of_Z 0) (B64.of_Z 1)) B64.nan))
     = true.
Proof.
  split; [vm_compute; reflexivity|].
  split; [intros q; vm_compute (B64.B2Q (B64.of_Z 2)); ring|].
  vm_compute. repeat split.
Qed.

(** C6, amended: when no computed value of [f(q) - xi*q] on the grid is
    [nan], the evaluator returns the grid point of least index among those
    whose computed value equals the extremal computed value, the least value
    in the argmin branch ([q_left <= q_right] holds) and the greatest in the
    argmax branch (it does not); that point is the lowest of them whenever
    the grid is in non-decreasing order. *)
Theorem b64_first_extremal_point (heap : nat -> B64.float)
    (f : B64.float -> B64.float) (q_left q_right : B64.float)
    (xi : list B64.float) (j : nat) (xij : B64.float) :
  xi !! j = Some xij ->
  B64.no_nan (B64.values f (B64.grid q_left q_right) xij) = true ->
  exists i q,
    B64.grid q_left q_right !! i = Some q
    /\ B64.evaluator heap f q_left q_right xi !! j = Some q
    /\ (B64.leb q_left q_right = true ->
          forall k q', B64.grid q_left q_right !! k = Some q' ->
            B64.leb (B64.objective f xij q) (B64.objective f xij q') = true)
    /\ (B64.leb q_left q_right = false ->
          forall k q', B64.grid q_left q_right !! k = Some q' ->
            B64.leb (B64.objective f xij q') (B64.objective f xij q) = true)
    /\ (forall k q', B64.grid q_left q_right !! k = Some q' ->
          B64.eqb (B64.objective f xij q') (B64.objective f xij q) = true ->
          (i <= k)%nat
          /\ ((forall a b x y, (a <= b)%nat ->
                 B64.grid q_left q_right !! a = Some x ->
                 B64.grid q_left q_right !! b = Some y ->
                 B64.leb x y = true) ->
              B64.leb q q' = true)).
Proof.
  intros Hj Hn. rewrite (b64_lookup_evaluator _ _ _ _ _ _ _ Hj).
  destruct (b64_scan_no_nan q_left q_right _
              (b64_values_nonempty f q_left q_right xij) Hn)
    as [[Hb Hfm]|[Hb Hfm]].
  - apply b64_pick_first_min in Hfm as (Hq & Hmin & Hfirst).
    eexists _, _. split; [exact Hq|]. split; [reflexivity|].
    split; [intros _; exact Hmin|]. split; [intros Hc; congruence|].
    intros k q' Hk Heq.
    assert (Hik : (B64.scan q_left q_right
                     (B64.values f (B64.grid q_left q_right) xij) <= k)%nat).
    { destruct (Nat.le_gt_cases
                  (B64.scan q_left q_right
                     (B64.values f (B64.grid q_left q_right) xij)) k)
        as [H|H]; [exact H|].
      pose proof (ltb_not_eqb _ _ (Hfirst k q' Hk H)). congruence. }
    split; [exact Hik|]. intros Hsorted. exact (Hsorted _ _ _ _ Hik Hq Hk).
  - apply b64_pick_first_max in Hfm as (Hq & Hmax & Hfirst).
    eexists _, _. split; [exact Hq|]. split; [reflexivity|].
    split; [intros Hc; congruence|]. split; [intros _; exact Hmax|].
    intros k q' Hk Heq.
    assert (Hik : (B64.scan q_left q_right
                     (B64.values f (B64.grid q_left q_right) xij) <= k)%nat).
    { destruct (Nat.le_gt_cases
                  (B64.scan q_left q_right
                     (B64.values f (B64.grid q_left q_right) xij)) k)
        as [H|H]; [exact H|].
      pose proof (ltb_not_eqb_l _ _ (Hfirst k q' Hk H)). congruence. }
    split; [exact Hik|]. intros Hsorted. exact (Hsorted _ _ _ _ Hik Hq Hk).
Qed.

Lemma b64_first_extremal_point_witness :
  exists i q,
    B64.grid (B64.of_Z 0) (B64.of_Z 1) !! i = Some q
    /\ B64.evaluator (fun _ => B64.nan) (fun _ => B64.of_Z 5)
         (B64.of_Z 0) (B64.of_Z 1) [B64.of_Z 0] !! 0%nat = Some q
    /\ (B64.leb (B64.of_Z 0) (B64.of_Z 1) = true ->
          forall k q', B64.grid (B64.of_Z 0) (B64.of_Z 1) !! k = Some q' ->
            B64.leb (B64.objective (fun _ => B64.of_Z 5) (B64.of_Z 0) q)
                    (B64.objective (fun _ => B64.of_Z 5) (B64.of_Z 0) q')
            = true)
    /\ (B64.leb (B64.of_Z 0) (B64.of_Z 1) = false ->
          forall k q', B64.grid (B64.of_Z 0) (B64.of_Z 1) !! k = Some q' ->
            B64.leb (B64.objective (fun _ => B64.of_Z 5) (B64.of_Z 0) q')
                    (B64.objective (fun _ => B64.of_Z 5) (B64.of_Z 0) q)
            = true)
    /\ (forall k q', B64.grid (B64.of_Z 0) (B64.of_Z 1) !! k = Some q' ->
          B64.eqb (B64.objective (fun _ => B64.of_Z 5) (B64.of_Z 0) q')
                  (B64.objective (fun _ => B64.of_Z 5) (B64.of_Z 0) q) = true ->
          (i <= k)%nat
          /\ ((forall a b x y, (a <= b)%nat ->
                 B64.grid (B64.of_Z 0) (B64.of_Z 1) !! a = Some x ->
                 B64.grid (B64.of_Z 0) (B64.of_Z 1) !! b = Some y ->
                 B64.leb x y = true) ->
              B64.leb q q' = true)).
Proof.
  apply (b64_first_extremal_point (fun _ => B64.nan) (fun _ => B64.of_Z 5)
           (B64.of_Z 0) (B64.of_Z 1) [B64.of_Z 0] 0 (B64.of_Z 0)).
  - reflexivity.
  - vm_compute. reflexivity.
Defined.






(** On that input the evaluator answers [50] to [xi = 100] and, the
    objective tying at [150] and [151], the first of them to [xi = 301]. *)
Example integer_grid_answers :
  B64.evaluator (fun _ => B64.nan) (fun q => B64.mul q q)
    (B64.of_Z 0) (B64.of_Z 999) [B64.of_Z 100; B64.of_Z 301]
  = [B64.of_Z 50; B64.of_Z 150].
Proof. vm_compute. reflexivity. Qed.

(** ** The flux is read on the grid only *)

Lemma same_double_eq (x y : B64.float) :
  B64.same_double x y = true -> x = y.
Proof.
  destruct x as [s|s| |s m e], y as [s'|s'| |s' m' e']; simpl;
    try discriminate; try reflexivity.
  - intros H. apply eqb_prop in H. congruence.
  - intros H. apply eqb_prop in H. congruence.
  - intros H. apply andb_true_iff in H as [H He].
    apply andb_true_iff in H as [Hs Hm].
    apply eqb_prop in Hs. apply Pos.eqb_eq in Hm. apply Z.eqb_eq in He.
    congruence.
Qed.

Lemma same_double_Forall (f g : B64.float -> B64.float) (qv : list B64.float) :
  forallb (fun q => B64.same_double (f q) (g q)) qv = true ->
  Forall (fun q => f q = g q) qv.
Proof.
  intros H. apply Forall_forall. intros q Hq. apply same_double_eq.
  rewrite forallb_forall in H. apply H, list_elem_of_In, Hq.
Qed.

(** X2: the evaluator reads the flux on the 1000 grid points only.  Two
    fluxes that return the same doubles on every grid point give the same
    answers, whatever the freshly allocated buffers hold. *)
Theorem b64_evaluator_flux_on_grid (heap heap' : nat -> B64.float)
    (f g : B64.float -> B64.float) (q_left q_right : B64.float)
    (xi : list B64.float) :
  Forall (fun q => f q = g q) (B64.grid q_left q_right) ->
  B64.evaluator heap f q_left q_right xi
  = B64.evaluator heap' g q_left q_right xi.
Proof.
  intros H. rewrite !b64_evaluator_map. apply map_ext. intros xij.
  unfold B64.pick. rewrite !b64_values_map. f_equal. f_equal.
  apply map_ext_in. intros q Hq. unfold B64.objective.
  rewrite Forall_forall in H. rewrite (H q (proj2 (list_elem_of_In _ _) Hq)).
  reflexivity.
Qed.

Lemma b64_evaluator_flux_on_grid_witness :
  B64.evaluator (fun _ => B64.nan)
    (fun q => B64.mul q (B64.sub (B64.of_Z 1) q))
    (B64.dec 1 10) (B64.dec 6 10) [B64.dec 3 10; B64.of_Z 0]
  = B64.evaluator (fun _ => B64.of_Z 7)
      (fun q => if B64.leb q (B64.of_Z 1)
                then B64.mul q (B64.sub (B64.of_Z 1) q) else B64.of_Z 0)
      (B64.dec 1 10) (B64.dec 6 10) [B64.dec 3 10; B64.of_Z 0].
Proof.
  apply (b64_evaluator_flux_on_grid (fun _ => B64.nan) (fun _ => B64.of_Z 7)
           (fun q => B64.mul q (B64.sub (B64.of_Z 1) q))
           (fun q => if B64.leb q (B64.of_Z 1)
                     then B64.mul q (B64.sub (B64.of_Z 1) q) else B64.of_Z 0)
           (B64.dec 1 10) (B64.dec 6 10) [B64.dec 3 10; B64.of_Z 0]).
  apply same_double_Forall. vm_compute. reflexivity.
Defined.

(** Equal as real functions is not enough: [q*(1-q)] and [q - q*q] are the
    same polynomial, and on the data [0.1], [0.6] the evaluator answers
    [0.6] to [xi = 0.3] for the first and [0.1] for the second. *)
Example same_polynomial_other_answer :
  B64.evaluator (fun _ => B64.nan)
    (fun q => B64.mul q (B64.sub (B64.of_Z 1) q))
    (B64.dec 1 10) (B64.dec 6 10) [B64.dec 3 10]
  = [B64.dec 6 10]
  /\ B64.evaluator (fun _ => B64.nan)
       (fun q => B64.sub q (B64.mul q q))
       (B64.dec 1 10) (B64.dec 6 10) [B64.dec 3 10]
     = [B64.dec 1 10].
Proof. vm_compute. split; reflexivity. Qed.

(** ** A [nan] among the computed values *)

Lemma find_nan_spec (v : list B64.float) :
  forall i r, B64.find_nan v i = Some r ->
    (i <= r)%nat /\ B64.first_nan v (r - i).
Proof.
  induction v as [|x t IH]; intros i r H; simpl in H; [discriminate H|].
  destruct (B64.is_nan x) eqn:Ex.
  - injection H as <-. split; [lia|]. rewrite Nat.sub_diag.
    apply is_nan_true in Ex. subst x. split; [reflexivity|].
    intros k y _ Hk. lia.
  - destruct (IH _ _ H) as [Hle [Hr Hbefore]]. split; [lia|].
    replace (r - i)%nat with (S (r - S i)) by lia. split; [exact Hr|].
    intros [|k] y Hk Hlt.
    + injection Hk as <-. exact Ex.
    + apply (Hbefore k y Hk). lia.
Qed.

Lemma first_nan_unique (v : list B64.float) (r s : nat) :
  B64.first_nan v r -> B64.first_nan v s -> r = s.
Proof.
  intros [Hr Hbr] [Hs Hbs].
  destruct (Nat.lt_trichotomy r s) as [H|[H|H]]; [|exact H|].
  - pose proof (Hbs r _ Hr H) as E. discriminate E.
  - pose proof (Hbr s _ Hs H) as E. discriminate E.
Qed.

(** Both scans return the index of the first [nan]. *)
Lemma first_nan_scan (q_left q_right : B64.float) (v : list B64.float)
    (r : nat) :
  B64.first_nan v r -> B64.scan q_left q_right v = r.
Proof.
  intros Hr. assert (Hv : v <> []).
  { destruct Hr as [Hr _]. intros ->. rewrite lookup_nil in Hr. discriminate Hr. }
  destruct (b64_scan_spec q_left q_right v Hv)
    as [[_ (x & _ & Hle & _)]|[[_ (x & _ & Hle & _)]|H]].
  - destruct Hr as [Hr _]. pose proof (Hle r _ Hr) as E.
    rewrite leb_nan_r in E. discriminate E.
  - destruct Hr as [Hr _]. pose proof (Hle r _ Hr) as E.
    apply leb_not_nan in E as [E _]. discriminate E.
  - apply (first_nan_unique v _ _ H Hr).
Qed.

(** X20: NumPy's scans stop at the first [nan].  When some computed value
    of [f(q) - xi*q] on the grid is [nan], the evaluator answers with the
    grid point of the first such value, in the argmin branch and in the
    argmax branch alike, whatever the other values are. *)
Theorem b64_evaluator_first_nan (heap : nat -> B64.float)
    (f : B64.float -> B64.float) (q_left q_right : B64.float)
    (xi : list B64.float) (j : nat) (xij : B64.float) (r : nat) :
  xi !! j = Some xij ->
  B64.find_nan (B64.values f (B64.grid q_left q_right) xij) 0 = Some r ->
  exists q,
    B64.grid q_left q_right !! r = Some q
    /\ B64.is_nan (B64.objective f xij q) = true
    /\ (forall k q', B64.grid q_left q_right !! k = Some q' -> (k < r)%nat ->
          B64.is_nan (B64.objective f xij q') = false)
    /\ B64.evaluator heap f q_left q_right xi !! j = Some q.
Proof.
  intros Hj Hfind. apply find_nan_spec in Hfind as [_ Hr].
  rewrite Nat.sub_0_r in Hr.
  pose proof (first_nan_scan q_left q_right _ _ Hr) as Hscan.
  pose proof (b64_pick_on_grid f q_left q_right xij) as Hq.
  rewrite Hscan in Hq. destruct Hr as [Hr Hbefore].
  eexists. split; [exact Hq|].
  rewrite (b64_lookup_values f _ xij _ _ Hq) in Hr. injection Hr as Hr.
  split; [rewrite Hr; reflexivity|]. split.
  - intros k q' Hk Hlt.
    apply (Hbefore k); [apply b64_lookup_values, Hk|exact Hlt].
  - apply (b64_lookup_evaluator _ _ _ _ _ _ _ Hj).
Qed.

Lemma b64_evaluator_first_nan_witness :
  exists q,
    B64.grid (B64.of_Z 1) (B64.of_Z 0) !! 999%nat = Some q
    /\ B64.is_nan
         (B64.objective
            (fun q => B64.div (B64.sub q (B64.of_Z 1)) (B64.sub q (B64.of_Z 1)))
            (B64.of_Z 5) q) = true
    /\ (forall k q', B64.grid (B64.of_Z 1) (B64.of_Z 0) !! k = Some q' ->
          (k < 999)%nat ->
          B64.is_nan
            (B64.objective
               (fun q => B64.div (B64.sub q (B64.of_Z 1))
                                 (B64.sub q (B64.of_Z 1)))
               (B64.of_Z 5) q') = false)
    /\ B64.evaluator (fun _ => B64.nan)
         (fun q => B64.div (B64.sub q (B64.of_Z 1)) (B64.sub q (B64.of_Z 1)))
         (B64.of_Z 1) (B64.of_Z 0) [B64.of_Z 5] !! 0%nat = Some q.
Proof.
  apply (b64_evaluator_first_nan (fun _ => B64.nan)
           (fun q => B64.div (B64.sub q (B64.of_Z 1)) (B64.sub q (B64.of_Z 1)))
           (B64.of_Z 1) (B64.of_Z 0) [B64.of_Z 5] 0 (B64.of_Z 5) 999).
  - reflexivity.
  - vm_compute. reflexivity.
Defined.

(** ** Worked cases on doubles *)

(** The first call of the notebook, the traffic flux [q*(1-q)] between
    [0.1] and [0.6]: at [xi = 0.3] the exact values of [f(q) - xi*q] at the
    two ends are equal, the computed ones are not, and the evaluator answers
    the last grid point, [0.6]. *)
Example b64_traffic_shock :
  B64.evaluator (fun _ => B64.nan)
    (fun q => B64.mul q (B64.sub (B64.of_Z 1) q))
    (B64.dec 1 10) (B64.dec 6 10) [B64.dec 2 10; B64.dec 3 10; B64.dec 4 10]
  = [B64.dec 1 10; B64.dec 6 10; B64.dec 6 10].
Proof. vm_compute. reflexivity. Qed.

(** A query so large that [xi*q] overflows from [q = 2] on: the computed
    value is [-inf] there, and the scan keeps the first of them, grid point
    333, not [q_right = 4]. *)
Example b64_overflowing_query :
  B64.evaluator (fun _ => B64.nan) (fun q => B64.mul q q)
    (B64.of_Z 1) (B64.of_Z 4) [B64.of_Z (2 ^ 1023)]
  = [nth 333 (B64.grid (B64.of_Z 1) (B64.of_Z 4)) B64.nan]
  /\ nth 333 (B64.grid (B64.of_Z 1) (B64.of_Z 4)) B64.nan = B64.of_Z 2.
Proof. vm_compute. split; reflexivity. Qed.
